(** * anima.pipeline.ui.version_creator: take names and version selection

    A shallow embedding of the logic of [MainDialog] in
    [src/anima/pipeline/ui/version_creator.py]:

    - the take-name conditioning of [add_take_toolButton_clicked]
      ([str.title] followed by four [re.sub] calls),
    - the version query of [update_previous_versions_tableWidget],
    - the signal handlers [tasks_treeWidget_changed] and
      [takes_listWidget_changed],
    - [restore_ui] and [get_previous_version].

    Text is modelled as [string] (a sequence of 8-bit characters).  The
    cased characters are the ASCII letters and [\s] is the six ASCII
    white-space characters, as for a Python 2 byte string and for the
    [re] module without the UNICODE flag; every other character is left
    alone by [title] and deleted by the second substitution. *)

From Stdlib Require Import Bool Arith ZArith List Ascii String Lia.
From Stdlib Require Import Sorting.Sorted Sorting.Permutation.
Import ListNotations.

Local Open Scope string_scope.
Local Open Scope char_scope.

(** ** Character classes *)

Definition code (c : ascii) : N := N_of_ascii c.

Definition in_range (lo hi : N) (c : ascii) : bool :=
  (N.leb lo (code c) && N.leb (code c) hi)%bool.

(** [islower], [isupper] of the C locale. *)
Definition islower (c : ascii) : bool := in_range 97 122 c.
Definition isupper (c : ascii) : bool := in_range 65 90 c.
Definition isdigit (c : ascii) : bool := in_range 48 57 c.

Definition toupper (c : ascii) : ascii :=
  if islower c then ascii_of_N (code c - 32) else c.
Definition tolower (c : ascii) : ascii :=
  if isupper c then ascii_of_N (code c + 32) else c.

Definition is_cased (c : ascii) : bool := (islower c || isupper c)%bool.

Definition is_underscore (c : ascii) : bool := Ascii.eqb c "_".
Definition is_newline (c : ascii) : bool := N.eqb (code c) 10.

(** [\s]: space, \t, \n, \v, \f, \r. *)
Definition is_space (c : ascii) : bool :=
  (N.eqb (code c) 32 || in_range 9 13 c)%bool.

(** The class [[\s\-]]. *)
Definition is_space_or_hyphen (c : ascii) : bool :=
  (is_space c || Ascii.eqb c "-")%bool.

(** The class [[a-zA-Z0-9_]] and its complement [[^a-zA-Z0-9_]]. *)
Definition is_word (c : ascii) : bool :=
  (islower c || isupper c || isdigit c || is_underscore c)%bool.
Definition is_not_word (c : ascii) : bool := negb (is_word c).

(** ** [str.title]

    The loop of [str.title]: a lower-case letter that does not follow a
    cased character is upper-cased, an upper-case letter that follows a
    cased character is lower-cased, and [previous_is_cased] is updated. *)
Fixpoint title_from (previous_is_cased : bool) (s : string) : string :=
  match s with
  | EmptyString => EmptyString
  | String c r =>
      if islower c then
        String (if previous_is_cased then c else toupper c) (title_from true r)
      else if isupper c then
        String (if previous_is_cased then tolower c else c) (title_from true r)
      else String c (title_from false r)
  end.

Definition title (s : string) : string := title_from false s.

(** ** [re.sub]

    [re_sub_plus cls repl in_run s] is [re.sub('[cls]+', repl, s)] for a
    character class [cls]: every maximal run of characters of the class
    is replaced by one copy of [repl].  [in_run] records that the
    previous character belonged to the run being replaced. *)
Fixpoint re_sub_plus (cls : ascii -> bool) (repl : string) (in_run : bool)
    (s : string) : string :=
  match s with
  | EmptyString => EmptyString
  | String c r =>
      if cls c then
        append (if in_run then EmptyString else repl)
               (re_sub_plus cls repl true r)
      else String c (re_sub_plus cls repl false r)
  end.

(** Drops the underscores at the head of [s]: what [[_]+] consumes. *)
Fixpoint skip_underscores (s : string) : string :=
  match s with
  | String c r => if is_underscore c then skip_underscores r else s
  | EmptyString => EmptyString
  end.

(** [$] without MULTILINE: the end of the string, or just before a
    newline that is the last character. *)
Definition at_dollar (s : string) : bool :=
  match s with
  | EmptyString => true
  | String c EmptyString => is_newline c
  | _ => false
  end.

(** [re.sub('[_]+$', '', s)]: the run of underscores that reaches [$],
    if there is one, is deleted. *)
Fixpoint re_sub_underscores_at_end (s : string) : string :=
  match s with
  | EmptyString => EmptyString
  | String c r =>
      if (is_underscore c && at_dollar (skip_underscores r))%bool
      then skip_underscores r
      else String c (re_sub_underscores_at_end r)
  end.

(** ** The conditioning of a take name

    Lines 1244-1249 of [add_take_toolButton_clicked]. *)
Definition normalize (take_name : string) : string :=
  let take_name := title take_name in
  let take_name := re_sub_plus is_space_or_hyphen "_" false take_name in
  let take_name := re_sub_plus is_not_word EmptyString false take_name in
  let take_name := re_sub_plus is_underscore "_" false take_name in
  let take_name := re_sub_underscores_at_end take_name in
  take_name.

(** ** Shapes of strings *)

Fixpoint all_chars (p : ascii -> bool) (s : string) : bool :=
  match s with
  | EmptyString => true
  | String c r => (p c && all_chars p r)%bool
  end.

Definition starts_with_underscore (s : string) : bool :=
  match s with
  | String c _ => is_underscore c
  | EmptyString => false
  end.

Fixpoint ends_with_underscore (s : string) : bool :=
  match s with
  | EmptyString => false
  | String c EmptyString => is_underscore c
  | String _ r => ends_with_underscore r
  end.

Fixpoint has_double_underscore (s : string) : bool :=
  match s with
  | EmptyString => false
  | String c r =>
      ((is_underscore c && starts_with_underscore r)
       || has_double_underscore r)%bool
  end.

(** A string that [title] leaves alone, started with the given value
    of [previous_is_cased]. *)
Fixpoint titled (previous_is_cased : bool) (s : string) : bool :=
  match s with
  | EmptyString => true
  | String c r =>
      if islower c then (previous_is_cased && titled true r)%bool
      else if isupper c then (negb previous_is_cased && titled true r)%bool
      else titled false r
  end.

(** The characters that the second substitution keeps or that the first
    one turns into an underscore. *)
Definition is_clean (c : ascii) : bool :=
  (is_word c || is_space_or_hyphen c)%bool.

(** The ASCII characters.  On text made of them alone [title_from] is
    what [title()] does to the text that the input dialog hands over;
    a letter outside ASCII has a case of its own there, which the
    8-bit characters of this embedding do not carry. *)
Definition is_ascii (c : ascii) : bool := N.ltb (code c) 128.

(** A take name in normal form: word characters only, titled, no two
    underscores in a row and none at the end. *)
Definition normal_take (s : string) : bool :=
  (all_chars is_word s && titled false s
   && negb (has_double_underscore s) && negb (ends_with_underscore s))%bool.

(** ** Domain entities *)

(** Modelled from the spec: the entity classes [Status], [Project],
    [Task] and [Version] of the persistence library, which the source
    imports; the records hold the attributes the dialog reads.  Two
    entities are [==] when they are the same entity: each record carries
    its primary key and [==] is equality of the records. *)
Record Status := { status_name : string }.

Record Project := {
  project_id : nat;
  project_name : string;
  active : bool
}.

Record Task := {
  task_id : nat;
  task_name : string;
  project : Project
}.

Record Version := {
  version_id : nat;
  task : Task;
  take_name : string;
  version_number : Z;
  is_published : bool;
  status : Status
}.

(** What a tree item carries in [stalker_entity]. *)
Inductive Entity :=
| EProject (p : Project)
| ETask (t : Task).

Definition entity_name (e : Entity) : string :=
  match e with
  | EProject p => project_name p
  | ETask t => task_name t
  end.

Definition Status_eq_dec (a b : Status) : {a = b} + {a <> b}.
Proof. decide equality; apply string_dec. Defined.

Definition Project_eq_dec (a b : Project) : {a = b} + {a <> b}.
Proof.
  decide equality; try apply Bool.bool_dec; try apply string_dec;
    apply Nat.eq_dec.
Defined.

Definition Task_eq_dec (a b : Task) : {a = b} + {a <> b}.
Proof.
  decide equality; try apply Project_eq_dec; try apply string_dec;
    apply Nat.eq_dec.
Defined.

Definition Version_eq_dec (a b : Version) : {a = b} + {a <> b}.
Proof.
  decide equality; try apply Status_eq_dec; try apply Bool.bool_dec;
    try apply Z.eq_dec; try apply string_dec; try apply Task_eq_dec;
    apply Nat.eq_dec.
Defined.

Definition Entity_eq_dec (a b : Entity) : {a = b} + {a <> b}.
Proof. decide equality; [apply Project_eq_dec | apply Task_eq_dec]. Defined.

Definition Task_eqb (a b : Task) : bool :=
  if Task_eq_dec a b then true else false.
Definition Version_eqb (a b : Version) : bool :=
  if Version_eq_dec a b then true else false.
Definition Entity_eqb (a b : Entity) : bool :=
  if Entity_eq_dec a b then true else false.

(** ** Sorting

    Insertion sort, used for [ORDER BY] and for [sortItems].  It is
    stable: of two elements that compare equal the one that came first
    stays first. *)
Section Sort.
Context {A : Type} (le : A -> A -> bool).

Fixpoint insert (x : A) (l : list A) : list A :=
  match l with
  | [] => [x]
  | y :: r => if le x y then x :: l else y :: insert x r
  end.

Fixpoint sort (l : list A) : list A :=
  match l with
  | [] => []
  | x :: r => insert x (sort r)
  end.
End Sort.

(** The order of a boolean comparison, as a relation. *)
Definition holds_le {A : Type} (le : A -> A -> bool) (a b : A) : Prop :=
  le a b = true.

(** ** The query builder

    The part of the SQLAlchemy query interface the dialog uses: a query
    collects criteria, an ordering and a limit, and [all] or [first]
    runs it on the rows of the table. *)
Inductive Criterion :=
| TaskIs (t : Task)              (* Version.task == t *)
| TakeNameIs (s : string)        (* Version.take_name == s *)
| IsPublishedIs (b : bool).      (* Version.is_published == b *)

Inductive Ordering :=
| VersionNumberDesc.             (* Version.version_number.desc() *)

Record Query := {
  criteria : list Criterion;
  ordering : option Ordering;
  row_limit : option Z
}.

Definition Version_query : Query :=
  {| criteria := []; ordering := None; row_limit := None |}.

Definition filter_ (c : Criterion) (q : Query) : Query :=
  {| criteria := (criteria q ++ [c])%list;
     ordering := ordering q;
     row_limit := row_limit q |}.

Definition order_by (o : Ordering) (q : Query) : Query :=
  {| criteria := criteria q; ordering := Some o; row_limit := row_limit q |}.

Definition limit (n : Z) (q : Query) : Query :=
  {| criteria := criteria q; ordering := ordering q; row_limit := Some n |}.

Definition holds (c : Criterion) (v : Version) : bool :=
  match c with
  | TaskIs t => Task_eqb (task v) t
  | TakeNameIs s => String.eqb (take_name v) s
  | IsPublishedIs b => Bool.eqb (is_published v) b
  end.

Definition version_number_desc (v w : Version) : bool :=
  Z.leb (version_number w) (version_number v).

Definition apply_ordering (o : option Ordering) (rows : list Version)
  : list Version :=
  match o with
  | Some VersionNumberDesc => sort version_number_desc rows
  | None => rows
  end.

(** [LIMIT n] keeps the first [n] rows. *)
Definition apply_limit (n : option Z) (rows : list Version) : list Version :=
  match n with
  | Some n => firstn (Z.to_nat n) rows
  | None => rows
  end.

Definition all (rows : list Version) (q : Query) : list Version :=
  apply_limit (row_limit q)
    (apply_ordering (ordering q)
       (filter (fun v => forallb (fun c => holds c v) (criteria q)) rows)).

(** [first] runs the query with [LIMIT 1]; [None] when there is no row. *)
Definition first (rows : list Version) (q : Query) : option Version :=
  hd_error (all rows (limit 1 q)).

(** [DBSession.query(distinct(Version.take_name)).filter(Version.task == t)]:
    the take names of the task, each once, in the order of the rows. *)
Fixpoint distinct (l : list string) : list string :=
  match l with
  | [] => []
  | x :: r => x :: filter (fun y => negb (String.eqb y x)) (distinct r)
  end.

Definition distinct_take_names (rows : list Version) (t : Task) : list string :=
  distinct (map take_name (filter (fun v => Task_eqb (task v) t) rows)).

(** ** Widgets

    The state of the dialog that the handlers read and write, together
    with the table of persisted versions they query. *)
Record UI := {
  (* the rows of the Version table, in storage order *)
  db : list Version;
  (* tasks_treeWidget: [stalker_entity] of every item, in iterator order *)
  tasks_treeWidget : list Entity;
  tasks_currentItem : option nat;
  (* takes_listWidget: the text of every item, and the current row *)
  takes_listWidget : list string;
  takes_currentItem : option nat;
  (* previous_versions_tableWidget.versions and currentRow() *)
  versions : list Version;
  currentRow : Z;
  (* statuses_comboBox: the entries and currentIndex() *)
  statuses_comboBox : list string;
  statuses_currentIndex : Z;
  (* show_published_only_checkBox.isChecked(), version_count_spinBox.value() *)
  show_published_only : bool;
  version_count : Z
}.

Definition with_tasks_currentItem (i : option nat) (ui : UI) : UI :=
  {| db := db ui; tasks_treeWidget := tasks_treeWidget ui;
     tasks_currentItem := i;
     takes_listWidget := takes_listWidget ui;
     takes_currentItem := takes_currentItem ui;
     versions := versions ui; currentRow := currentRow ui;
     statuses_comboBox := statuses_comboBox ui;
     statuses_currentIndex := statuses_currentIndex ui;
     show_published_only := show_published_only ui;
     version_count := version_count ui |}.

Definition with_takes (l : list string) (i : option nat) (ui : UI) : UI :=
  {| db := db ui; tasks_treeWidget := tasks_treeWidget ui;
     tasks_currentItem := tasks_currentItem ui;
     takes_listWidget := l;
     takes_currentItem := i;
     versions := versions ui; currentRow := currentRow ui;
     statuses_comboBox := statuses_comboBox ui;
     statuses_currentIndex := statuses_currentIndex ui;
     show_published_only := show_published_only ui;
     version_count := version_count ui |}.

Definition with_versions (l : list Version) (row : Z) (ui : UI) : UI :=
  {| db := db ui; tasks_treeWidget := tasks_treeWidget ui;
     tasks_currentItem := tasks_currentItem ui;
     takes_listWidget := takes_listWidget ui;
     takes_currentItem := takes_currentItem ui;
     versions := l; currentRow := row;
     statuses_comboBox := statuses_comboBox ui;
     statuses_currentIndex := statuses_currentIndex ui;
     show_published_only := show_published_only ui;
     version_count := version_count ui |}.

Definition with_statuses_currentIndex (i : Z) (ui : UI) : UI :=
  {| db := db ui; tasks_treeWidget := tasks_treeWidget ui;
     tasks_currentItem := tasks_currentItem ui;
     takes_listWidget := takes_listWidget ui;
     takes_currentItem := takes_currentItem ui;
     versions := versions ui; currentRow := currentRow ui;
     statuses_comboBox := statuses_comboBox ui;
     statuses_currentIndex := i;
     show_published_only := show_published_only ui;
     version_count := version_count ui |}.

(** The exceptions the handlers can raise, and how a handler ends: it
    returns, or it raises and leaves the dialog as it was at that line. *)
Inductive exn := AttributeError | IndexError.

Inductive outcome :=
| Returned (ui : UI)
| Raised (e : exn) (ui : UI).

Definition ui_of (o : outcome) : UI :=
  match o with
  | Returned ui => ui
  | Raised _ ui => ui
  end.

Definition raises (o : outcome) : bool :=
  match o with
  | Returned _ => false
  | Raised _ _ => true
  end.

(** *** Python and Qt helpers *)

(** [l[i]] on a Python list: a negative index counts from the end and
    [None] stands for IndexError. *)
Definition py_getitem {A : Type} (l : list A) (i : Z) : option A :=
  let n := Z.of_nat (List.length l) in
  if Z.leb 0 i then nth_error l (Z.to_nat i)
  else if Z.leb 0 (i + n) then nth_error l (Z.to_nat (i + n))
  else None.

(** The rows whose text is exactly [text], in order: [findItems] with
    [Qt.MatchExactly].  [n] is the row of the head of [l]. *)
Fixpoint findItems_from (n : nat) (text : string) (l : list string) : list nat :=
  match l with
  | [] => []
  | x :: r =>
      if String.eqb x text then n :: findItems_from (S n) text r
      else findItems_from (S n) text r
  end.

Definition findItems (text : string) (ui : UI) : list nat :=
  findItems_from 0 text (takes_listWidget ui).

(** [findText] with [Qt.MatchExactly]: the first index, or -1. *)
Fixpoint findText_from (n : Z) (text : string) (l : list string) : Z :=
  match l with
  | [] => (-1)%Z
  | x :: r => if String.eqb x text then n else findText_from (n + 1) text r
  end.

Definition findText (text : string) (ui : UI) : Z :=
  findText_from 0 text (statuses_comboBox ui).

(** [takes_listWidget.currentItem()], and its text with the default of
    the handlers (the empty string, unless there is a current item). *)
Definition takes_current (ui : UI) : option string :=
  match takes_currentItem ui with
  | Some i => nth_error (takes_listWidget ui) i
  | None => None
  end.

Definition current_take_name (ui : UI) : string :=
  match takes_current ui with
  | Some text => text
  | None => EmptyString
  end.

(** [statuses_comboBox.currentText()]. *)
Definition current_status (ui : UI) : option string :=
  if Z.leb 0 (statuses_currentIndex ui)
  then nth_error (statuses_comboBox ui) (Z.to_nat (statuses_currentIndex ui))
  else None.

(** Modelled from the spec: [defaults.version_take_name], a constant of
    the configuration that the source imports.  It is the take Main of
    the glossary, as the comment above line 832 of the source says. *)
Definition version_take_name : string := "Main"%string.

(** ** The handlers *)

Definition set_status (s : Status) (ui : UI) : UI :=
  let index := findText (status_name s) ui in
  if negb (Z.eqb index (-1)) then with_statuses_currentIndex index ui else ui.

(** [QTableWidget.clear] drops the items and the current index with
    them; the cache is emptied next to it. *)
Definition clear_previous_versions_tableWidget (ui : UI) : UI :=
  with_versions [] (-1) ui.

Definition get_task (ui : UI) : option Task :=
  match tasks_currentItem ui with
  | Some i =>
      match nth_error (tasks_treeWidget ui) i with
      | Some (ETask t) => Some t
      | _ => None
      end
  | None => None
  end.

Definition update_previous_versions_tableWidget (ui : UI) : UI :=
  let ui := clear_previous_versions_tableWidget ui in
  match get_task ui with
  | None => ui
  | Some task =>
      let take_name := current_take_name ui in
      if String.eqb take_name EmptyString then ui
      else
        let query :=
          filter_ (TakeNameIs take_name) (filter_ (TaskIs task) Version_query) in
        let query :=
          if show_published_only ui
          then filter_ (IsPublishedIs true) query else query in
        let count := version_count ui in
        let versions :=
          all (db ui) (limit count (order_by VersionNumberDesc query)) in
        let versions := rev versions in
        let ui := with_versions versions (currentRow ui) ui in
        match py_getitem versions (-1) with
        | Some last_version => set_status (status last_version) ui
        | None => ui
        end
  end.

Definition takes_listWidget_changed (ui : UI) : UI :=
  let ui := update_previous_versions_tableWidget ui in
  let take_name := current_take_name ui in
  match get_task ui with
  | None => ui
  | Some task =>
      let query :=
        filter_ (TakeNameIs take_name) (filter_ (TaskIs task) Version_query) in
      match first (db ui) (order_by VersionNumberDesc query) with
      | Some version => set_status (status version) ui
      | None => ui
      end
  end.

(** [takes_listWidget.setCurrentItem]: [currentTextChanged] is emitted,
    and [takes_listWidget_changed] runs, only when the current item
    really changes. *)
Definition takes_setCurrentItem (i : option nat) (ui : UI) : UI :=
  match i, takes_currentItem ui with
  | Some a, Some b =>
      if Nat.eqb a b then ui
      else takes_listWidget_changed (with_takes (takes_listWidget ui) i ui)
  | None, None => ui
  | _, _ => takes_listWidget_changed (with_takes (takes_listWidget ui) i ui)
  end.

(** [takes_listWidget.clear]: the current item goes first, with its
    signal, and then the items. *)
Definition takes_clear (ui : UI) : UI :=
  with_takes [] None (takes_setCurrentItem None ui).

Definition takes_addItems (l : list string) (ui : UI) : UI :=
  with_takes (takes_listWidget ui ++ l)%list (takes_currentItem ui) ui.

(** [item(0)]: no item on an empty list. *)
Definition takes_item0 (ui : UI) : option nat :=
  match takes_listWidget ui with
  | [] => None
  | _ :: _ => Some 0
  end.

(** [sortItems]: ascending by text; the current item stays current and
    moves with its text. *)
Fixpoint mark_current (n : nat) (cur : option nat) (l : list string)
  : list (string * bool) :=
  match l with
  | [] => []
  | x :: r =>
      (x, match cur with Some i => Nat.eqb i n | None => false end)
        :: mark_current (S n) cur r
  end.

Fixpoint index_of_marked (n : nat) (l : list (string * bool)) : option nat :=
  match l with
  | [] => None
  | (_, true) :: _ => Some n
  | (_, false) :: r => index_of_marked (S n) r
  end.

Definition text_leb (a b : string * bool) : bool := String.leb (fst a) (fst b).

Definition takes_sortItems (ui : UI) : UI :=
  let sorted :=
    sort text_leb (mark_current 0 (takes_currentItem ui) (takes_listWidget ui)) in
  with_takes (map fst sorted) (index_of_marked 0 sorted) ui.

Definition tasks_treeWidget_changed (ui : UI) : UI :=
  match tasks_currentItem ui with
  | None => ui
  | Some i =>
      match nth_error (tasks_treeWidget ui) i with
      | None => ui
      | Some entity =>
          let ui := takes_clear ui in
          match entity with
          | EProject _ => ui
          | ETask t =>
              let takes := distinct_take_names (db ui) t in
              let takes :=
                if existsb (String.eqb version_take_name) takes then takes
                else (takes ++ [version_take_name])%list in
              let ui :=
                match takes with
                | [] => takes_addItems [version_take_name] ui
                | _ => takes_addItems takes ui
                end in
              takes_setCurrentItem (takes_item0 ui) ui
          end
      end
  end.

(** [tasks_treeWidget.setCurrentItem]: [currentItemChanged] is emitted,
    and [tasks_treeWidget_changed] runs, only on a change. *)
Definition tasks_setCurrentItem (i : nat) (ui : UI) : UI :=
  match tasks_currentItem ui with
  | Some b =>
      if Nat.eqb i b then ui
      else tasks_treeWidget_changed (with_tasks_currentItem (Some i) ui)
  | None => tasks_treeWidget_changed (with_tasks_currentItem (Some i) ui)
  end.

(** The first item whose text is the name of the entity and whose
    [stalker_entity] is the entity. *)
Fixpoint find_entity_from (n : nat) (entity : Entity) (items : list Entity)
  : option nat :=
  match items with
  | [] => None
  | e :: r =>
      if (String.eqb (entity_name e) (entity_name entity)
          && Entity_eqb e entity)%bool
      then Some n
      else find_entity_from (S n) entity r
  end.

Definition find_entity_item_in_tree_widget (entity : Entity) (ui : UI)
  : option nat :=
  find_entity_from 0 entity (tasks_treeWidget ui).

(** The loop of [restore_ui] over the cache: the first index whose
    version is the given one, or -1. *)
Fixpoint index_of_version (i : Z) (version : Version) (l : list Version) : Z :=
  match l with
  | [] => (-1)%Z
  | prev_version :: r =>
      if Version_eqb prev_version version then i
      else index_of_version (i + 1) version r
  end.

Definition restore_ui (version : option Version) (ui : UI) : outcome :=
  match version with
  | None => Returned ui
  | Some version =>
      if negb (active (project (task version))) then Returned ui
      else
        let task := task version in
        match find_entity_item_in_tree_widget (ETask task) ui with
        | None => Returned ui
        | Some item =>
            let ui := tasks_setCurrentItem item ui in
            let take_name := take_name version in
            let items := findItems take_name ui in
            match items with
            | [] => Raised IndexError ui       (* items[0] *)
            | item0 :: _ =>
                let ui := takes_setCurrentItem (Some item0) ui in
                let index := index_of_version 0 version (versions ui) in
                if negb (Z.eqb index (-1))
                then Returned (with_versions (versions ui) index ui)
                else Returned ui
            end
        end
  end.

(** The answer of the input dialog: the text and the [ok] flag. *)
Definition add_take_toolButton_clicked (answer : string * bool) (ui : UI)
  : outcome :=
  match takes_current ui with
  | None => Raised AttributeError ui   (* currentItem().text() *)
  | Some current_take_name =>
      let (take_name, ok) := answer in
      if ok then
        if negb (String.eqb take_name EmptyString) then
          let take_name := normalize take_name in
          let in_list := existsb (fun text => String.eqb text take_name)
                                 (takes_listWidget ui) in
          if negb in_list then
            let ui := takes_addItems [take_name] ui in
            let ui := takes_sortItems ui in
            match findItems take_name ui with
            | item :: _ => Returned (takes_setCurrentItem (Some item) ui)
            | [] => Returned ui
            end
          else Returned ui
        else Returned ui
      else Returned ui
  end.

Definition get_previous_version (ui : UI) : option Version :=
  py_getitem (versions ui) (currentRow ui).

(** ** The derivation of the listing in words

    The four steps of the listing as the design describes them: the
    versions of the task and take, the published ones only when asked,
    by version number descending, the first [limit] of them, reversed. *)
Definition versions_of (rows : list Version) (t : Task) (take : string)
  : list Version :=
  filter (fun v => (Task_eqb (task v) t && String.eqb (take_name v) take)%bool)
         rows.

Definition candidates (rows : list Version) (t : Task) (take : string)
    (published_only : bool) : list Version :=
  if published_only then filter is_published (versions_of rows t take)
  else versions_of rows t take.

Definition list_versions_reference (rows : list Version) (t : Task)
    (take : string) (published_only : bool) (lim : Z) : list Version :=
  let newest_first :=
    sort version_number_desc (candidates rows t take published_only) in
  rev (firstn (Z.to_nat lim) newest_first).

(** The query for the versions of a task and take, as both handlers
    build it. *)
Definition pair_query (t : Task) (take : string) : Query :=
  filter_ (TakeNameIs take) (filter_ (TaskIs t) Version_query).

(** The reference derivation behind the guards of the rebuild: nothing
    is listed without a task or without a take name. *)
Definition listing (ui : UI) : list Version :=
  match get_task ui with
  | None => []
  | Some t =>
      if String.eqb (current_take_name ui) EmptyString then []
      else list_versions_reference (db ui) t (current_take_name ui)
             (show_published_only ui) (version_count ui)
  end.

(** Orders used in the statements. *)
Definition number_le (v w : Version) : Prop :=
  (version_number v <= version_number w)%Z.

Definition text_le (a b : string) : Prop := String.leb a b = true.

(** Numbers, newest first. *)
Definition Z_desc (a b : Z) : bool := Z.leb b a.

(** ** Sample data *)

Definition WIP : Status := {| status_name := "WIP" |}.
Definition Completed : Status := {| status_name := "Completed" |}.

Definition film : Project :=
  {| project_id := 1; project_name := "Film"; active := true |}.

Definition comp : Task :=
  {| task_id := 10; task_name := "Comp"; project := film |}.

Definition mk_version (id : nat) (take : string) (n : Z) (published : bool)
    (s : Status) : Version :=
  {| version_id := id; task := comp; take_name := take; version_number := n;
     is_published := published; status := s |}.

(** Five versions of the take Main, stored out of order. *)
Definition v1 := mk_version 101 "Main" 1 true Completed.
Definition v2 := mk_version 102 "Main" 2 true Completed.
Definition v3 := mk_version 103 "Main" 3 false WIP.
Definition v4 := mk_version 104 "Main" 4 true Completed.
Definition v5 := mk_version 105 "Main" 5 false WIP.
(** A version of another take. *)
Definition alt1 := mk_version 201 "Alt" 1 false WIP.

(** A dialog with the task selected and nothing listed yet. *)
Definition dialog (rows : list Version) (takes : list string)
    (take : option nat) (published_only : bool) (count : Z) : UI :=
  {| db := rows;
     tasks_treeWidget := [EProject film; ETask comp];
     tasks_currentItem := Some 1%nat;
     takes_listWidget := takes;
     takes_currentItem := take;
     versions := [];
     currentRow := (-1)%Z;
     statuses_comboBox := ["New"; "WIP"; "Completed"]%string;
     statuses_currentIndex := 0%Z;
     show_published_only := published_only;
     version_count := count |}.

(** The task selected, the take Main current, a count of 3. *)
Definition listing_dialog : UI :=
  dialog [v3; v1; alt1; v5; v2; v4] ["Alt"; "Main"]%string (Some 1%nat) false 3.

(** Published only, and the newest version is not published. *)
Definition published_dialog : UI :=
  dialog [v4; v5] ["Main"]%string (Some 0%nat) true 10.

(** Published only, and no version is published. *)
Definition unpublished_dialog : UI :=
  dialog [v5] ["Main"]%string (Some 0%nat) true 10.

(** The take list is stale: the take Alt has a version by now, and the
    list was filled when it had none. *)
Definition stale_dialog : UI :=
  dialog [v1; alt1] ["Main"]%string (Some 0%nat) false 10.

(** The user has clicked the row of version 5 in the list 3, 4, 5. *)
Definition row_dialog : UI :=
  let ui := update_previous_versions_tableWidget listing_dialog in
  with_versions (versions ui) 2 ui.

(** A dialog that has just been filled: no tree item is current. *)
Definition fresh_dialog : UI :=
  with_tasks_currentItem None
    (dialog [v3; v1; alt1; v5; v2; v4] ["Main"]%string (Some 0%nat) false 3).

(** One take, Main, which is current. *)
Definition main_dialog : UI :=
  dialog [v1] ["Main"]%string (Some 0%nat) false 10.

(** Two takes, and Alt is the current one. *)
Definition two_takes_dialog : UI :=
  dialog [alt1; v1] ["Alt"; "Main"]%string (Some 0%nat) false 10.

(** The user has clicked the project node: the take list is empty. *)
Definition project_dialog : UI := tasks_setCurrentItem 0 main_dialog.

(** The click on the task node of a dialog that has just been filled,
    at the moment the handler of the tree starts. *)
Definition fresh_selected : UI := with_tasks_currentItem (Some 1%nat) fresh_dialog.

(** ** The other handlers *)

(** The take names [tasks_treeWidget_changed] fills the list with for a
    task: those of its versions, and the default one at the end when no
    version has it. *)
Definition task_takes (rows : list Version) (t : Task) : list string :=
  let takes := distinct_take_names rows t in
  if existsb (String.eqb version_take_name) takes then takes
  else (takes ++ [version_take_name])%list.



(** The cache holds the versions of the task and take that are current. *)
Definition cache_ok (ui : UI) : Prop := versions ui = listing ui.

(** [version_count_spinBox] and [show_published_only_checkBox] are both
    connected to [update_previous_versions_tableWidget]: a new value is
    followed by a rebuild. *)
Definition with_settings (published_only : bool) (count : Z) (ui : UI) : UI :=
  {| db := db ui; tasks_treeWidget := tasks_treeWidget ui;
     tasks_currentItem := tasks_currentItem ui;
     takes_listWidget := takes_listWidget ui;
     takes_currentItem := takes_currentItem ui;
     versions := versions ui; currentRow := currentRow ui;
     statuses_comboBox := statuses_comboBox ui;
     statuses_currentIndex := statuses_currentIndex ui;
     show_published_only := published_only;
     version_count := count |}.

Definition version_count_changed (count : Z) (ui : UI) : UI :=
  update_previous_versions_tableWidget
    (with_settings (show_published_only ui) count ui).

Definition show_published_only_changed (checked : bool) (ui : UI) : UI :=
  update_previous_versions_tableWidget
    (with_settings checked (version_count ui) ui).

(** What [reference_pushButton_clicked] does to the outside: the message
    boxes it opens and the call of [environment.reference]. *)
Inductive effect :=
| CriticalBox          (* "Critical Error": un-published versions *)
| EnvReference (v : Version)
| InformationBox.      (* "Reference": has been referenced correctly *)

Inductive reference_outcome :=
| ReferenceDone (effects : list effect)
| ReferenceRaised (e : exn).

(** [environment] tells whether [self.environment] is not [None] and
    [debug] whether the logger is at the DEBUG level. *)
Definition reference_pushButton_clicked (environment debug : bool) (ui : UI)
  : reference_outcome :=
  match get_previous_version ui with
  | None => ReferenceRaised AttributeError   (* None.is_published *)
  | Some previous_version =>
      if negb (is_published previous_version) then ReferenceDone [CriticalBox]
      else if environment then
        ReferenceDone
          (EnvReference previous_version
             :: (if negb debug then [InformationBox] else []))
      else ReferenceDone []
  end.

(* ================================================================== *)
(** * Properties *)

(** ** Characters *)

Ltac each_ascii c :=
  destruct c as [[|] [|] [|] [|] [|] [|] [|] [|]].

Lemma toupper_case (c : ascii) :
  islower c = true ->
  islower (toupper c) = false /\ isupper (toupper c) = true.
Proof. each_ascii c; vm_compute; intros H; try discriminate H; split; reflexivity. Qed.

Lemma tolower_case (c : ascii) :
  isupper c = true -> islower (tolower c) = true.
Proof. each_ascii c; vm_compute; intros H; try discriminate H; reflexivity. Qed.

Lemma toupper_clean (c : ascii) : is_clean (toupper c) = is_clean c.
Proof. each_ascii c; reflexivity. Qed.

Lemma tolower_clean (c : ascii) : is_clean (tolower c) = is_clean c.
Proof. each_ascii c; reflexivity. Qed.

Lemma space_or_hyphen_uncased (c : ascii) :
  is_space_or_hyphen c = true -> islower c = false /\ isupper c = false.
Proof. each_ascii c; vm_compute; intros H; try discriminate H; split; reflexivity. Qed.

Lemma underscore_uncased (c : ascii) :
  is_underscore c = true -> islower c = false /\ isupper c = false.
Proof. each_ascii c; vm_compute; intros H; try discriminate H; split; reflexivity. Qed.

Lemma underscore_is_word (c : ascii) : is_underscore c = true -> is_word c = true.
Proof. each_ascii c; vm_compute; intros H; try discriminate H; reflexivity. Qed.

Lemma word_not_space_or_hyphen (c : ascii) :
  is_word c = true -> is_space_or_hyphen c = false.
Proof. each_ascii c; vm_compute; intros H; try discriminate H; reflexivity. Qed.

Lemma word_not_newline (c : ascii) : is_word c = true -> is_newline c = false.
Proof. each_ascii c; vm_compute; intros H; try discriminate H; reflexivity. Qed.

Lemma newline_uncased (c : ascii) :
  is_newline c = true -> islower c = false /\ isupper c = false.
Proof. each_ascii c; vm_compute; intros H; try discriminate H; split; reflexivity. Qed.

Lemma newline_not_underscore (c : ascii) :
  is_newline c = true -> is_underscore c = false.
Proof. each_ascii c; vm_compute; intros H; try discriminate H; reflexivity. Qed.

Lemma clean_cases (c : ascii) :
  is_clean c = true -> is_space_or_hyphen c = false -> is_word c = true.
Proof.
  unfold is_clean. intros H Hs. rewrite Hs, Bool.orb_false_r in H. exact H.
Qed.

(** ** [title] *)

Lemma titled_title_from (s : string) :
  forall b, titled b (title_from b s) = true.
Proof.
  induction s as [|c r IH]; intros b; simpl; [reflexivity|].
  destruct (islower c) eqn:Hl.
  - destruct b; simpl.
    + rewrite Hl. apply IH.
    + destruct (toupper_case c Hl) as [Hl' Hu']. rewrite Hl', Hu'. apply IH.
  - destruct (isupper c) eqn:Hu.
    + destruct b; simpl.
      * rewrite (tolower_case c Hu). apply IH.
      * rewrite Hl, Hu. apply IH.
    + simpl. rewrite Hl, Hu. apply IH.
Qed.

Lemma title_from_fixed (s : string) :
  forall b, titled b s = true -> title_from b s = s.
Proof.
  induction s as [|c r IH]; intros b; simpl; [reflexivity|].
  destruct (islower c) eqn:Hl.
  - destruct b; simpl; [|discriminate]. intros H. now rewrite IH.
  - destruct (isupper c) eqn:Hu.
    + destruct b; simpl; [discriminate|]. intros H. now rewrite IH.
    + intros H. now rewrite IH.
Qed.

Lemma title_from_clean (s : string) :
  forall b, all_chars is_clean s = true ->
            all_chars is_clean (title_from b s) = true.
Proof.
  induction s as [|c r IH]; intros b; simpl; [reflexivity|].
  intros H. apply Bool.andb_true_iff in H. destruct H as [Hc Hr].
  destruct (islower c); [|destruct (isupper c)]; simpl;
    try destruct b; rewrite ?toupper_clean, ?tolower_clean, Hc; simpl;
    now apply IH.
Qed.

(** ** Substitutions *)

Lemma all_chars_append (p : ascii -> bool) (s t : string) :
  all_chars p (append s t) = (all_chars p s && all_chars p t)%bool.
Proof.
  induction s as [|c r IH]; simpl; [reflexivity|].
  now rewrite IH, Bool.andb_assoc.
Qed.

Lemma re_sub_plus_all_chars (p cls : ascii -> bool) (repl : string) (s : string) :
  all_chars p repl = true ->
  forall b, all_chars p s = true ->
            all_chars p (re_sub_plus cls repl b s) = true.
Proof.
  intros Hrepl. induction s as [|c r IH]; intros b; simpl; [reflexivity|].
  intros H. apply Bool.andb_true_iff in H. destruct H as [Hc Hr].
  destruct (cls c).
  - rewrite all_chars_append, (IH true Hr).
    destruct b; simpl; [reflexivity|]. now rewrite Hrepl.
  - simpl. now rewrite Hc, IH.
Qed.

(** A substitution whose class meets no character of the string leaves
    the string as it is. *)
Lemma re_sub_plus_absent (cls : ascii -> bool) (repl : string) (s : string) :
  forall b, all_chars (fun c => negb (cls c)) s = true ->
            re_sub_plus cls repl b s = s.
Proof.
  induction s as [|c r IH]; intros b; simpl; [reflexivity|].
  intros H. apply Bool.andb_true_iff in H. destruct H as [Hc Hr].
  destruct (cls c); [discriminate|]. now rewrite IH.
Qed.

Lemma all_chars_impl (p q : ascii -> bool) (s : string) :
  (forall c, p c = true -> q c = true) ->
  all_chars p s = true -> all_chars q s = true.
Proof.
  intros Hpq. induction s as [|c r IH]; simpl; [reflexivity|].
  intros H. apply Bool.andb_true_iff in H. destruct H as [Hc Hr].
  now rewrite (Hpq c Hc), IH.
Qed.

(** After the first substitution a clean string has word characters only. *)
Lemma spaces_to_underscore_word (s : string) :
  forall b, all_chars is_clean s = true ->
            all_chars is_word (re_sub_plus is_space_or_hyphen "_" b s) = true.
Proof.
  induction s as [|c r IH]; intros b; simpl; [reflexivity|].
  intros H. apply Bool.andb_true_iff in H. destruct H as [Hc Hr].
  destruct (is_space_or_hyphen c) eqn:Hs.
  - rewrite all_chars_append, (IH true Hr). now destruct b.
  - simpl. now rewrite (clean_cases c Hc Hs), IH.
Qed.

(** The second substitution leaves word characters only. *)
Lemma drop_non_word_word (s : string) :
  forall b, all_chars is_word (re_sub_plus is_not_word EmptyString b s) = true.
Proof.
  induction s as [|c r IH]; intros b; simpl; [reflexivity|].
  unfold is_not_word at 1. destruct (is_word c) eqn:Hw; simpl.
  - now rewrite Hw, IH.
  - destruct b; simpl; apply IH.
Qed.

(** A substitution of uncased characters by an underscore keeps a
    titled string titled. *)
Lemma re_sub_plus_titled (cls : ascii -> bool) (s : string) :
  (forall c, cls c = true -> islower c = false /\ isupper c = false) ->
  forall b in_run,
    (in_run = true -> b = false) ->
    titled b s = true ->
    titled b (re_sub_plus cls "_" in_run s) = true.
Proof.
  intros Hcls. induction s as [|c r IH]; intros b in_run Hrun; simpl;
    [reflexivity|].
  destruct (cls c) eqn:Hc.
  - destruct (Hcls c Hc) as [Hl Hu]. rewrite Hl, Hu. intros H.
    destruct in_run; simpl.
    + rewrite (Hrun eq_refl). now apply IH.
    + now apply IH.
  - simpl. destruct (islower c); [|destruct (isupper c)]; intros H.
    + apply Bool.andb_true_iff in H. destruct H as [Hb Hr]. rewrite Hb.
      simpl. apply IH; [discriminate|exact Hr].
    + apply Bool.andb_true_iff in H. destruct H as [Hb Hr]. rewrite Hb.
      simpl. apply IH; [discriminate|exact Hr].
    + apply IH; [discriminate|exact H].
Qed.

(** The third substitution leaves no two underscores in a row. *)
Lemma collapse_no_double (s : string) :
  forall b,
    has_double_underscore (re_sub_plus is_underscore "_" b s) = false /\
    (b = true ->
     starts_with_underscore (re_sub_plus is_underscore "_" b s) = false).
Proof.
  induction s as [|c r IH]; intros b; simpl; [split; reflexivity|].
  destruct (is_underscore c) eqn:Hc.
  - destruct (IH true) as [Hd Hs]. specialize (Hs eq_refl).
    destruct b; simpl.
    + split; [exact Hd|intros _; exact Hs].
    + rewrite Hs, Hd. split; [reflexivity|discriminate].
  - destruct (IH false) as [Hd _]. simpl. rewrite Hc, Hd. simpl.
    split; [reflexivity|intros _; reflexivity].
Qed.

Lemma collapse_fixed (s : string) :
  has_double_underscore s = false ->
  re_sub_plus is_underscore "_" false s = s.
Proof.
  induction s as [|c r IH]; simpl; [reflexivity|].
  intros H. apply Bool.orb_false_iff in H. destruct H as [Hcr Hr].
  destruct (is_underscore c) eqn:Hc.
  - simpl in Hcr. destruct r as [|d r']; simpl in *.
    + now rewrite (proj1 (Ascii.eqb_eq c "_") Hc).
    + rewrite Hcr. rewrite (proj1 (Ascii.eqb_eq c "_") Hc). f_equal.
      specialize (IH Hr). rewrite Hcr in IH. exact IH.
  - now rewrite IH.
Qed.

(** ** The substitution at the end of the string *)

Lemma skip_underscores_all_chars (p : ascii -> bool) (s : string) :
  all_chars p s = true -> all_chars p (skip_underscores s) = true.
Proof.
  induction s as [|c r IH]; simpl; [reflexivity|].
  intros H. destruct (is_underscore c); [|exact H].
  apply Bool.andb_true_iff in H. now apply IH.
Qed.

(** Among word characters [$] is the end of the string. *)
Lemma at_dollar_word (s : string) :
  all_chars is_word s = true -> at_dollar s = true -> s = EmptyString.
Proof.
  destruct s as [|c [|d r]]; simpl; try reflexivity; try discriminate.
  intros H Hn. rewrite Bool.andb_true_r in H.
  now rewrite (word_not_newline c H) in Hn.
Qed.

Lemma at_dollar_shape (s : string) :
  at_dollar s = true ->
  s = EmptyString \/ exists c, s = String c EmptyString /\ is_newline c = true.
Proof.
  destruct s as [|c [|d r]]; simpl; try discriminate; [now left|].
  intros H. right. now exists c.
Qed.

Lemma skip_underscores_empty_end (s : string) :
  s <> EmptyString -> skip_underscores s = EmptyString ->
  ends_with_underscore s = true.
Proof.
  induction s as [|c r IH]; [congruence|]. intros _. simpl.
  destruct (is_underscore c) eqn:Hc; [|discriminate].
  intros H. destruct r as [|d r']; [reflexivity|].
  apply IH; [discriminate|exact H].
Qed.

Lemma strip_all_chars (p : ascii -> bool) (s : string) :
  all_chars p s = true -> all_chars p (re_sub_underscores_at_end s) = true.
Proof.
  induction s as [|c r IH]; simpl; [reflexivity|].
  intros H. apply Bool.andb_true_iff in H. destruct H as [Hc Hr].
  destruct (is_underscore c && at_dollar (skip_underscores r))%bool.
  - now apply skip_underscores_all_chars.
  - simpl. now rewrite Hc, IH.
Qed.

Lemma strip_empty (s : string) :
  all_chars is_word s = true ->
  re_sub_underscores_at_end s = EmptyString ->
  skip_underscores s = EmptyString.
Proof.
  destruct s as [|c r]; simpl; [reflexivity|].
  intros H. apply Bool.andb_true_iff in H. destruct H as [Hc Hr].
  destruct (is_underscore c) eqn:Hu; simpl.
  - destruct (at_dollar (skip_underscores r)); [trivial|discriminate].
  - discriminate.
Qed.

Lemma strip_no_trailing (s : string) :
  all_chars is_word s = true ->
  ends_with_underscore (re_sub_underscores_at_end s) = false.
Proof.
  induction s as [|c r IH]; simpl; [reflexivity|].
  intros H. apply Bool.andb_true_iff in H. destruct H as [Hc Hr].
  destruct (is_underscore c && at_dollar (skip_underscores r))%bool eqn:Hb.
  - apply Bool.andb_true_iff in Hb. destruct Hb as [_ Hd].
    now rewrite (at_dollar_word _ (skip_underscores_all_chars _ _ Hr) Hd).
  - simpl. destruct (re_sub_underscores_at_end r) eqn:Hs.
    + apply strip_empty in Hs; [|exact Hr]. rewrite Hs in Hb. simpl in Hb.
      now rewrite Bool.andb_true_r in Hb.
    + now apply IH.
Qed.

Lemma strip_starts (s : string) :
  starts_with_underscore s = false ->
  starts_with_underscore (re_sub_underscores_at_end s) = false.
Proof.
  destruct s as [|c r]; simpl; [reflexivity|].
  intros H. rewrite H. simpl. exact H.
Qed.

Lemma strip_no_double (s : string) :
  has_double_underscore s = false ->
  has_double_underscore (re_sub_underscores_at_end s) = false.
Proof.
  induction s as [|c r IH]; simpl; [reflexivity|].
  intros H. apply Bool.orb_false_iff in H. destruct H as [Hcr Hr].
  destruct (is_underscore c && at_dollar (skip_underscores r))%bool eqn:Hb.
  - apply Bool.andb_true_iff in Hb. destruct Hb as [_ Hd].
    destruct (at_dollar_shape _ Hd) as [->|[d [-> Hn]]]; [reflexivity|].
    simpl. now rewrite (newline_not_underscore d Hn).
  - simpl. rewrite (IH Hr), Bool.orb_false_r.
    destruct (is_underscore c) eqn:Hc; [|reflexivity]. simpl in *.
    now apply strip_starts.
Qed.

Lemma strip_titled (s : string) :
  forall b, titled b s = true ->
            titled b (re_sub_underscores_at_end s) = true.
Proof.
  induction s as [|c r IH]; intros b; simpl; [reflexivity|].
  destruct (is_underscore c && at_dollar (skip_underscores r))%bool eqn:Hb.
  - intros _. apply Bool.andb_true_iff in Hb. destruct Hb as [_ Hd].
    destruct (at_dollar_shape _ Hd) as [->|[d [-> Hn]]]; [reflexivity|].
    simpl. destruct (newline_uncased d Hn) as [-> ->]. reflexivity.
  - simpl. destruct (islower c); [|destruct (isupper c)]; intros H.
    + apply Bool.andb_true_iff in H. destruct H as [-> Hr]. now apply IH.
    + apply Bool.andb_true_iff in H. destruct H as [-> Hr]. now apply IH.
    + now apply IH.
Qed.

Lemma strip_fixed (s : string) :
  all_chars is_word s = true ->
  ends_with_underscore s = false ->
  re_sub_underscores_at_end s = s.
Proof.
  induction s as [|c r IH]; simpl; [reflexivity|].
  intros H He. apply Bool.andb_true_iff in H. destruct H as [Hc Hr].
  destruct (is_underscore c && at_dollar (skip_underscores r))%bool eqn:Hb.
  - apply Bool.andb_true_iff in Hb. destruct Hb as [Hu Hd].
    apply at_dollar_word in Hd; [|now apply skip_underscores_all_chars].
    destruct r as [|d r']; [congruence|].
    rewrite (skip_underscores_empty_end (String d r')) in He;
      [discriminate|discriminate|exact Hd].
  - f_equal. destruct r as [|d r']; [reflexivity|]. now apply IH.
Qed.

(** ** Normal forms of take names *)

Lemma normalize_word (x : string) : all_chars is_word (normalize x) = true.
Proof.
  unfold normalize. apply strip_all_chars.
  apply re_sub_plus_all_chars; [reflexivity|]. apply drop_non_word_word.
Qed.

Lemma normalize_no_double (x : string) :
  has_double_underscore (normalize x) = false.
Proof. unfold normalize. apply strip_no_double. apply collapse_no_double. Qed.

Lemma normalize_no_trailing (x : string) :
  ends_with_underscore (normalize x) = false.
Proof.
  unfold normalize. apply strip_no_trailing.
  apply re_sub_plus_all_chars; [reflexivity|]. apply drop_non_word_word.
Qed.

Lemma word_is_clean (s : string) :
  all_chars is_word s = true -> all_chars is_clean s = true.
Proof.
  apply all_chars_impl. intros c H. unfold is_clean. now rewrite H.
Qed.

Lemma normalize_fixed (y : string) :
  normal_take y = true -> normalize y = y.
Proof.
  unfold normal_take. intros H.
  repeat (apply Bool.andb_true_iff in H; destruct H as [H ?]).
  rename H into Hw, H0 into He, H1 into Hd, H2 into Ht.
  apply Bool.negb_true_iff in He, Hd.
  unfold normalize, title. rewrite (title_from_fixed _ _ Ht).
  rewrite (re_sub_plus_absent is_space_or_hyphen).
  2:{ apply (all_chars_impl is_word); [|exact Hw].
      intros c Hc. now rewrite (word_not_space_or_hyphen c Hc). }
  rewrite (re_sub_plus_absent is_not_word).
  2:{ apply (all_chars_impl is_word); [|exact Hw].
      intros c Hc. unfold is_not_word. now rewrite Hc. }
  rewrite (collapse_fixed _ Hd). now apply strip_fixed.
Qed.

Lemma normalize_clean_normal (x : string) :
  all_chars is_clean x = true -> normal_take (normalize x) = true.
Proof.
  intros Hx. unfold normal_take.
  rewrite normalize_word, normalize_no_double, normalize_no_trailing.
  simpl. rewrite Bool.andb_true_r.
  unfold normalize, title.
  assert (Hw : all_chars is_word
                 (re_sub_plus is_space_or_hyphen "_" false (title_from false x))
               = true).
  { apply spaces_to_underscore_word. now apply title_from_clean. }
  rewrite (re_sub_plus_absent is_not_word).
  2:{ apply (all_chars_impl is_word); [|exact Hw].
      intros c Hc. unfold is_not_word. now rewrite Hc. }
  rewrite Bool.andb_true_r. apply strip_titled.
  apply re_sub_plus_titled;
    [exact underscore_uncased | discriminate |].
  apply re_sub_plus_titled;
    [exact space_or_hyphen_uncased | discriminate |].
  apply titled_title_from.
Qed.

(** Whatever the input, a second pass already reaches a normal form. *)
Lemma normalize_twice_normal (x : string) :
  normal_take (normalize (normalize x)) = true.
Proof. apply normalize_clean_normal, word_is_clean, normalize_word. Qed.

(** C4 (as amended): on every input made of ASCII letters, digits,
    underscores, white space and hyphens only, that is, on which the
    second substitution deletes nothing, normalizing twice gives the
    same take name as normalizing once. *)
Theorem normalize_idempotent_on_clean (x : string) :
  all_chars is_clean x = true ->
  normalize (normalize x) = normalize x.
Proof. intros Hx. apply normalize_fixed. now apply normalize_clean_normal. Qed.

Lemma normalize_idempotent_on_clean_witness :
  all_chars is_clean "foo bar-baz  2" = true /\
  normalize (normalize "foo bar-baz  2") = normalize "foo bar-baz  2".
Proof.
  split; [reflexivity|].
  apply (normalize_idempotent_on_clean "foo bar-baz  2"). reflexivity.
Defined.

(** C4 (as stated) fails: the apostrophe of [it's] makes [title]
    capitalize the [s], the second substitution deletes the apostrophe,
    and a second pass lowers the [S] again. *)
Lemma normalize_not_idempotent :
  normalize "it's" = "ItS"%string /\
  normalize (normalize "it's") = "Its"%string /\
  normalize (normalize "it's") <> normalize "it's".
Proof. repeat split; try reflexivity. vm_compute. discriminate. Qed.

(** C5 (as amended): a non-empty normalized take name has no trailing
    underscore and no two consecutive underscores (a leading underscore
    can remain). *)
Theorem normalize_underscores (x : string) :
  normalize x <> EmptyString ->
  ends_with_underscore (normalize x) = false /\
  has_double_underscore (normalize x) = false.
Proof.
  intros _. split; [apply normalize_no_trailing | apply normalize_no_double].
Qed.

Lemma normalize_underscores_witness :
  normalize " foo -- bar__ " <> EmptyString /\
  ends_with_underscore (normalize " foo -- bar__ ") = false /\
  has_double_underscore (normalize " foo -- bar__ ") = false.
Proof.
  split; [vm_compute; discriminate|].
  apply (normalize_underscores " foo -- bar__ "). vm_compute. discriminate.
Defined.

(** C5 (as stated) fails: a leading blank becomes a leading underscore
    that no substitution removes. *)
Lemma normalize_leading_underscore :
  normalize " a" = "_A"%string /\
  normalize " a" <> EmptyString /\
  starts_with_underscore (normalize " a") = true.
Proof. repeat split; try reflexivity. vm_compute. discriminate. Qed.

(** For every input a third pass changes nothing any more. *)
Lemma normalize_thrice (x : string) :
  normalize (normalize (normalize x)) = normalize (normalize x).
Proof. apply normalize_fixed, normalize_twice_normal. Qed.

(** ** Sorting *)

Section SortFacts.
Context {A : Type} (le : A -> A -> bool).
Hypothesis le_total : forall a b, le a b = true \/ le b a = true.

Lemma insert_perm (x : A) (l : list A) : Permutation (insert le x l) (x :: l).
Proof.
  induction l as [|y r IH]; simpl; [apply Permutation_refl|].
  destruct (le x y); [apply Permutation_refl|].
  eapply Permutation_trans; [apply perm_skip, IH | apply perm_swap].
Qed.

Lemma sort_perm (l : list A) : Permutation (sort le l) l.
Proof.
  induction l as [|x r IH]; simpl; [apply perm_nil|].
  eapply Permutation_trans; [apply insert_perm | apply perm_skip, IH].
Qed.

Lemma insert_hdrel (a x : A) (l : list A) :
  holds_le le a x -> HdRel (holds_le le) a l ->
  HdRel (holds_le le) a (insert le x l).
Proof.
  intros Hax Hal. destruct l as [|y r]; simpl.
  - now constructor.
  - destruct (le x y); constructor; [exact Hax|].
    now inversion Hal.
Qed.

Lemma insert_sorted (x : A) (l : list A) :
  Sorted (holds_le le) l -> Sorted (holds_le le) (insert le x l).
Proof.
  induction l as [|y r IH]; simpl; intros Hs.
  - repeat constructor.
  - destruct (le x y) eqn:Hxy.
    + constructor; [exact Hs|]. now constructor.
    + apply Sorted_inv in Hs. destruct Hs as [Hr Hy].
      constructor; [now apply IH|].
      apply insert_hdrel; [|exact Hy].
      destruct (le_total x y) as [H|H]; [congruence|exact H].
Qed.

Lemma sort_sorted (l : list A) : Sorted (holds_le le) (sort le l).
Proof.
  induction l as [|x r IH]; simpl; [constructor|].
  now apply insert_sorted.
Qed.

Lemma sort_in (x : A) (l : list A) : In x (sort le l) <-> In x l.
Proof.
  split; apply Permutation_in;
    [apply sort_perm | apply Permutation_sym, sort_perm].
Qed.

Lemma sort_length (l : list A) : List.length (sort le l) = List.length l.
Proof. apply Permutation_length, sort_perm. Qed.
End SortFacts.

Lemma insert_map {A B : Type} (f : A -> B) (le : B -> B -> bool) (x : A)
    (l : list A) :
  map f (insert (fun a b => le (f a) (f b)) x l) = insert le (f x) (map f l).
Proof.
  induction l as [|y r IH]; simpl; [reflexivity|].
  destruct (le (f x) (f y)); simpl; [reflexivity|]. now rewrite IH.
Qed.

Lemma sort_map {A B : Type} (f : A -> B) (le : B -> B -> bool) (l : list A) :
  map f (sort (fun a b => le (f a) (f b)) l) = sort le (map f l).
Proof.
  induction l as [|x r IH]; simpl; [reflexivity|].
  now rewrite insert_map, IH.
Qed.

Lemma Z_desc_insert_comm (x y : Z) (l : list Z) :
  insert Z_desc x (insert Z_desc y l) = insert Z_desc y (insert Z_desc x l).
Proof.
  induction l as [|z r IH]; unfold Z_desc in *; simpl.
  - destruct (Z.leb_spec y x), (Z.leb_spec x y); try reflexivity;
      try lia. now replace y with x by lia.
  - destruct (Z.leb_spec z y), (Z.leb_spec z x); simpl;
      repeat match goal with
             | |- context [Z.leb ?a ?b] => destruct (Z.leb_spec a b)
             end; try reflexivity; try lia.
    + now replace y with x by lia.
    + now rewrite IH.
Qed.

Lemma Z_desc_sort_perm (l l' : list Z) :
  Permutation l l' -> sort Z_desc l = sort Z_desc l'.
Proof.
  induction 1 as [|x l l' _ IH|x y l|l l' l'' _ IH1 _ IH2]; simpl.
  - reflexivity.
  - now rewrite IH.
  - apply Z_desc_insert_comm.
  - now rewrite IH1.
Qed.

Lemma sort_version_numbers (l : list Version) :
  map version_number (sort version_number_desc l)
  = sort Z_desc (map version_number l).
Proof. exact (sort_map version_number Z_desc l). Qed.

Lemma version_number_desc_total (v w : Version) :
  version_number_desc v w = true \/ version_number_desc w v = true.
Proof. unfold version_number_desc. rewrite !Z.leb_le. lia. Qed.

Lemma sort_desc_strongly (l : list Version) :
  StronglySorted (fun v w => number_le w v) (sort version_number_desc l).
Proof.
  apply Sorted_StronglySorted.
  - intros a b c Hab Hbc. unfold number_le in *. lia.
  - eapply Sorted_ind with
      (P := fun l => Sorted (fun v w => number_le w v) l);
      [constructor | | apply (sort_sorted version_number_desc
                                version_number_desc_total l)].
    intros a l0 _ IH Hd. constructor; [exact IH|].
    destruct Hd; constructor.
    unfold version_number_desc in *. unfold number_le. now apply Z.leb_le.
Qed.

Lemma StronglySorted_firstn {A : Type} (R : A -> A -> Prop) (n : nat)
    (l : list A) :
  StronglySorted R l -> StronglySorted R (firstn n l).
Proof.
  revert l. induction n as [|n IH]; intros l Hs; simpl; [constructor|].
  destruct l as [|x r]; [constructor|].
  apply StronglySorted_inv in Hs. destruct Hs as [Hr Hx].
  constructor; [now apply IH|].
  rewrite Forall_forall in *. intros y Hy. apply Hx.
  rewrite <- (firstn_skipn n r). apply in_or_app. now left.
Qed.

Lemma StronglySorted_snoc {A : Type} (R : A -> A -> Prop) (l : list A) (x : A) :
  StronglySorted R l -> Forall (fun y => R y x) l ->
  StronglySorted R (l ++ [x]).
Proof.
  induction l as [|y r IH]; simpl; intros Hs Hx.
  - repeat constructor.
  - apply StronglySorted_inv in Hs. destruct Hs as [Hr Hy].
    inversion Hx; subst. constructor; [now apply IH|].
    apply Forall_app. split; [exact Hy|]. now constructor.
Qed.

Lemma StronglySorted_rev {A : Type} (R : A -> A -> Prop) (l : list A) :
  StronglySorted R l -> StronglySorted (fun a b => R b a) (rev l).
Proof.
  induction l as [|x r IH]; simpl; intros Hs; [constructor|].
  apply StronglySorted_inv in Hs. destruct Hs as [Hr Hx].
  apply StronglySorted_snoc; [now apply IH|].
  now apply Forall_rev.
Qed.

(** ** Running a query *)

Lemma filter_filter_and {A : Type} (f g : A -> bool) (l : list A) :
  filter f (filter g l) = filter (fun x => (g x && f x)%bool) l.
Proof.
  induction l as [|x r IH]; simpl; [reflexivity|].
  destruct (g x); simpl; [destruct (f x)|]; now rewrite IH.
Qed.

Lemma all_pair_query (rows : list Version) (t : Task) (take : string) :
  all rows (pair_query t take) = versions_of rows t take.
Proof.
  unfold all, pair_query, versions_of. simpl. apply filter_ext.
  intros v. now rewrite Bool.andb_true_r.
Qed.

Lemma all_listing (rows : list Version) (t : Task) (take : string)
    (published_only : bool) (n : Z) :
  all rows
      (limit n
         (order_by VersionNumberDesc
            (if published_only
             then filter_ (IsPublishedIs true) (pair_query t take)
             else pair_query t take)))
  = firstn (Z.to_nat n)
      (sort version_number_desc (candidates rows t take published_only)).
Proof.
  unfold all, candidates, versions_of.
  destruct published_only; simpl; do 2 f_equal.
  - rewrite filter_filter_and. apply filter_ext. intros v.
    rewrite Bool.andb_true_r.
    destruct (is_published v); simpl; now rewrite ?Bool.andb_assoc.
  - apply filter_ext. intros v. now rewrite Bool.andb_true_r.
Qed.

Lemma first_newest (rows : list Version) (t : Task) (take : string) :
  first rows (order_by VersionNumberDesc (pair_query t take))
  = hd_error (sort version_number_desc (versions_of rows t take)).
Proof.
  unfold first. change (limit 1 (order_by VersionNumberDesc (pair_query t take)))
    with (limit 1 (order_by VersionNumberDesc
                     (if false then filter_ (IsPublishedIs true) (pair_query t take)
                      else pair_query t take))).
  rewrite all_listing. unfold candidates.
  now destruct (sort version_number_desc (versions_of rows t take)).
Qed.

(** ** What the handlers leave alone *)

Lemma set_status_frame (s : Status) (ui : UI) :
  let ui' := set_status s ui in
  db ui' = db ui /\ tasks_treeWidget ui' = tasks_treeWidget ui /\
  tasks_currentItem ui' = tasks_currentItem ui /\
  takes_listWidget ui' = takes_listWidget ui /\
  takes_currentItem ui' = takes_currentItem ui /\
  versions ui' = versions ui /\ currentRow ui' = currentRow ui /\
  statuses_comboBox ui' = statuses_comboBox ui /\
  show_published_only ui' = show_published_only ui /\
  version_count ui' = version_count ui.
Proof.
  unfold set_status. destruct (negb _); simpl; repeat split; reflexivity.
Qed.

Lemma get_task_frame (ui ui' : UI) :
  tasks_treeWidget ui' = tasks_treeWidget ui ->
  tasks_currentItem ui' = tasks_currentItem ui ->
  get_task ui' = get_task ui.
Proof. unfold get_task. now intros -> ->. Qed.

Lemma current_take_name_frame (ui ui' : UI) :
  takes_listWidget ui' = takes_listWidget ui ->
  takes_currentItem ui' = takes_currentItem ui ->
  current_take_name ui' = current_take_name ui.
Proof. unfold current_take_name, takes_current. now intros -> ->. Qed.

Lemma update_frame (ui : UI) :
  let ui' := update_previous_versions_tableWidget ui in
  db ui' = db ui /\ tasks_treeWidget ui' = tasks_treeWidget ui /\
  tasks_currentItem ui' = tasks_currentItem ui /\
  takes_listWidget ui' = takes_listWidget ui /\
  takes_currentItem ui' = takes_currentItem ui /\
  versions ui' = listing ui /\ currentRow ui' = (-1)%Z /\
  statuses_comboBox ui' = statuses_comboBox ui /\
  show_published_only ui' = show_published_only ui /\
  version_count ui' = version_count ui.
Proof.
  unfold update_previous_versions_tableWidget, listing.
  change (get_task (clear_previous_versions_tableWidget ui)) with (get_task ui).
  change (current_take_name (clear_previous_versions_tableWidget ui))
    with (current_take_name ui).
  destruct (get_task ui) as [t|]; [|simpl; repeat split; reflexivity].
  destruct (String.eqb (current_take_name ui) EmptyString); simpl;
    [repeat split; reflexivity|].
  fold (pair_query t (current_take_name ui)).
  rewrite all_listing. fold (list_versions_reference (db ui) t
    (current_take_name ui) (show_published_only ui) (version_count ui)).
  destruct (py_getitem _ _); [|simpl; repeat split; reflexivity].
  match goal with
  | |- context [set_status ?s ?u] =>
      destruct (set_status_frame s u)
        as (-> & -> & -> & -> & -> & -> & -> & -> & -> & ->)
  end.
  simpl. repeat split; reflexivity.
Qed.

Lemma changed_frame (ui : UI) :
  let ui' := takes_listWidget_changed ui in
  db ui' = db ui /\ tasks_treeWidget ui' = tasks_treeWidget ui /\
  tasks_currentItem ui' = tasks_currentItem ui /\
  takes_listWidget ui' = takes_listWidget ui /\
  takes_currentItem ui' = takes_currentItem ui /\
  versions ui' = listing ui /\ currentRow ui' = (-1)%Z /\
  statuses_comboBox ui' = statuses_comboBox ui /\
  show_published_only ui' = show_published_only ui /\
  version_count ui' = version_count ui.
Proof.
  unfold takes_listWidget_changed.
  destruct (update_frame ui) as (Hd & Ht & Htc & Hl & Hlc & Hv & Hr & Hs & Hp & Hn).
  cbv zeta in *.
  set (ui1 := update_previous_versions_tableWidget ui) in *.
  destruct (get_task ui1); [|repeat split; assumption].
  destruct (first _ _); [|repeat split; assumption].
  match goal with
  | |- context [set_status ?s ?u] =>
      destruct (set_status_frame s u)
        as (-> & -> & -> & -> & -> & -> & -> & -> & -> & ->)
  end.
  repeat split; assumption.
Qed.

(** ** The listing *)

Lemma StronglySorted_app_inv {A : Type} (R : A -> A -> Prop) (l1 l2 : list A) :
  StronglySorted R (l1 ++ l2) ->
  forall a b, In a l1 -> In b l2 -> R a b.
Proof.
  induction l1 as [|x r IH]; simpl; intros Hs a b Ha Hb; [contradiction|].
  apply StronglySorted_inv in Hs. destruct Hs as [Hr Hx].
  destruct Ha as [<-|Ha]; [|now apply IH].
  rewrite Forall_forall in Hx. apply Hx, in_or_app. now right.
Qed.

Lemma candidates_in (rows : list Version) (t : Task) (take : string)
    (published_only : bool) (v : Version) :
  In v (candidates rows t take published_only) <->
  In v rows /\ task v = t /\ take_name v = take /\
  (published_only = true -> is_published v = true).
Proof.
  unfold candidates, versions_of, Task_eqb.
  destruct published_only; rewrite ?filter_In, ?Bool.andb_true_iff,
    ?String.eqb_eq; destruct (Task_eq_dec (task v) t); intuition congruence.
Qed.

Lemma reference_in (rows : list Version) (t : Task) (take : string)
    (published_only : bool) (n : Z) (v : Version) :
  In v (list_versions_reference rows t take published_only n) ->
  In v (candidates rows t take published_only).
Proof.
  unfold list_versions_reference. rewrite <- in_rev. intros H.
  apply (sort_in version_number_desc).
  rewrite <- (firstn_skipn (Z.to_nat n)). apply in_or_app. now left.
Qed.

Lemma reference_sorted (rows : list Version) (t : Task) (take : string)
    (published_only : bool) (n : Z) :
  StronglySorted number_le
    (list_versions_reference rows t take published_only n).
Proof.
  unfold list_versions_reference.
  apply (StronglySorted_rev (fun v w => number_le w v)).
  apply StronglySorted_firstn, sort_desc_strongly.
Qed.

(** What the cap leaves out is no newer than what it keeps. *)
Lemma reference_window (rows : list Version) (t : Task) (take : string)
    (published_only : bool) (n : Z) (v w : Version) :
  let shown := list_versions_reference rows t take published_only n in
  In v shown -> In w (candidates rows t take published_only) ->
  ~ In w shown -> number_le w v.
Proof.
  unfold list_versions_reference. cbv zeta.
  set (s := sort version_number_desc (candidates rows t take published_only)).
  rewrite <- !in_rev. intros Hv Hw Hnw.
  assert (Hs : StronglySorted (fun a b => number_le b a)
                 (firstn (Z.to_nat n) s ++ skipn (Z.to_nat n) s)).
  { rewrite firstn_skipn. apply sort_desc_strongly. }
  apply (StronglySorted_app_inv _ _ _ Hs v w Hv).
  assert (Hin : In w s) by now apply (sort_in version_number_desc).
  rewrite <- (firstn_skipn (Z.to_nat n) s) in Hin.
  apply in_app_or in Hin. now destruct Hin.
Qed.

Lemma reference_one_to_five (rows : list Version) (t : Task) (take : string)
    (published_only : bool) :
  Permutation (map version_number (candidates rows t take published_only))
              [1; 2; 3; 4; 5]%Z ->
  map version_number (list_versions_reference rows t take published_only 3)
  = [3; 4; 5]%Z.
Proof.
  intros Hp. unfold list_versions_reference.
  rewrite map_rev, <- firstn_map, sort_version_numbers.
  now rewrite (Z_desc_sort_perm _ _ Hp).
Qed.

(** C7: with a task selected, a take with a non-empty name current and
    a positive count, the list shown after a rebuild is the reference
    derivation: the versions of the task and take, the published ones
    only when that is asked, by version number descending, the first
    [limit] of them, reversed.  It is ascending by version number, holds
    versions of the task and take only, no unpublished one when
    published-only is set, at most [limit] of them and the newest ones;
    versions numbered 1 to 5 with a limit of 3 are shown as 3, 4, 5. *)
Theorem shown_versions_reference (ui : UI) (t : Task) (take : string) :
  get_task ui = Some t ->
  takes_current ui = Some take ->
  take <> EmptyString ->
  (0 < version_count ui)%Z ->
  let shown := versions (update_previous_versions_tableWidget ui) in
  let among :=
    candidates (db ui) t take (show_published_only ui) in
  shown = list_versions_reference (db ui) t take (show_published_only ui)
            (version_count ui) /\
  StronglySorted number_le shown /\
  (forall v, In v shown ->
             In v (db ui) /\ task v = t /\ take_name v = take) /\
  (show_published_only ui = true ->
   forall v, In v shown -> is_published v = true) /\
  (List.length shown <= Z.to_nat (version_count ui))%nat /\
  (forall v w, In v shown -> In w among -> ~ In w shown -> number_le w v) /\
  (Permutation (map version_number among) [1; 2; 3; 4; 5]%Z ->
   version_count ui = 3%Z ->
   map version_number shown = [3; 4; 5]%Z).
Proof.
  intros Ht Htake Hne Hpos shown among.
  assert (Hshown : shown = list_versions_reference (db ui) t take
                             (show_published_only ui) (version_count ui)).
  { unfold shown. destruct (update_frame ui) as (_ & _ & _ & _ & _ & -> & _).
    unfold listing, current_take_name. rewrite Ht, Htake.
    apply String.eqb_neq in Hne. now rewrite Hne. }
  split; [exact Hshown|]. rewrite Hshown. repeat split.
  - apply reference_sorted.
  - now apply reference_in, candidates_in in H.
  - now apply reference_in, candidates_in in H.
  - now apply reference_in, candidates_in in H.
  - intros Hp v Hv. apply reference_in, candidates_in in Hv. now apply Hv.
  - unfold list_versions_reference. rewrite length_rev, length_firstn.
    apply Nat.le_min_l.
  - intros v w. apply reference_window.
  - intros Hp ->. now apply reference_one_to_five.
Qed.

Lemma Z_desc_sort_eq_perm (l l' : list Z) :
  sort Z_desc l = sort Z_desc l' -> Permutation l l'.
Proof.
  intros H. eapply Permutation_trans; [apply Permutation_sym, sort_perm|].
  rewrite H. apply sort_perm.
Qed.

Lemma shown_versions_reference_witness :
  get_task listing_dialog = Some comp /\
  takes_current listing_dialog = Some "Main"%string /\
  "Main"%string <> EmptyString /\
  (0 < version_count listing_dialog)%Z /\
  map version_number
      (versions (update_previous_versions_tableWidget listing_dialog))
  = [3; 4; 5]%Z.
Proof.
  split; [reflexivity|]. split; [reflexivity|]. split; [discriminate|].
  split; [reflexivity|].
  apply (shown_versions_reference listing_dialog comp "Main");
    try reflexivity; try discriminate.
  apply Z_desc_sort_eq_perm. reflexivity.
Defined.

(** ** Python's negative index *)

Lemma py_getitem_last_nil {A : Type} : py_getitem (@nil A) (-1) = None.
Proof. reflexivity. Qed.

Lemma py_getitem_last_snoc {A : Type} (l : list A) (x : A) :
  py_getitem (l ++ [x])%list (-1) = Some x.
Proof.
  unfold py_getitem. rewrite length_app. simpl List.length.
  replace (0 <=? -1)%Z with false by reflexivity.
  replace (0 <=? -1 + Z.of_nat (List.length l + 1))%Z with true
    by (symmetry; apply Z.leb_le; lia).
  replace (Z.to_nat (-1 + Z.of_nat (List.length l + 1))) with (List.length l)
    by lia.
  now rewrite nth_error_app2, Nat.sub_diag by lia.
Qed.

Lemma py_getitem_last {A : Type} (l : list A) :
  (l = [] /\ py_getitem l (-1) = None) \/
  (exists front x, l = (front ++ [x])%list /\ py_getitem l (-1) = Some x).
Proof.
  destruct l as [|a r]; [left; split; reflexivity|]. right.
  destruct (@exists_last A (a :: r)) as (front & x & Heq); [discriminate|].
  exists front, x. split; [exact Heq|].
  rewrite Heq. apply py_getitem_last_snoc.
Qed.

(** ** The status after a change of take *)

Lemma findText_from_in (text : string) (l : list string) :
  In text l ->
  forall n, exists k,
    findText_from n text l = (n + Z.of_nat k)%Z /\ nth_error l k = Some text.
Proof.
  induction l as [|x r IH]; simpl; [contradiction|]. intros Hin n.
  destruct (String.eqb_spec x text) as [->|Hne].
  - exists 0%nat. split; [simpl; lia|reflexivity].
  - destruct Hin as [Hx|Hin]; [contradiction|].
    destruct (IH Hin (n + 1)%Z) as (k & Hk & Hnth).
    exists (S k). split; [rewrite Hk; lia|exact Hnth].
Qed.

Lemma set_status_shown (s : Status) (ui : UI) :
  In (status_name s) (statuses_comboBox ui) ->
  current_status (set_status s ui) = Some (status_name s).
Proof.
  intros Hin. unfold set_status, findText.
  destruct (findText_from_in _ _ Hin 0%Z) as (k & Hk & Hnth).
  rewrite Hk. simpl (0 + _)%Z.
  replace (negb (Z.of_nat k =? -1)%Z) with true
    by (symmetry; apply Bool.negb_true_iff, Z.eqb_neq; lia).
  unfold current_status. simpl.
  replace (0 <=? Z.of_nat k)%Z with true by (symmetry; apply Z.leb_le; lia).
  now rewrite Nat2Z.id.
Qed.

Lemma hd_sort_desc_newest (l : list Version) (v : Version) :
  hd_error (sort version_number_desc l) = Some v ->
  In v l /\ forall w, In w l -> number_le w v.
Proof.
  intros H. pose proof (sort_desc_strongly l) as Hs.
  pose proof (fun x => sort_in version_number_desc x l) as Hin.
  destruct (sort version_number_desc l) as [|x r]; [discriminate|].
  injection H as ->. split; [apply Hin; now left|].
  intros w Hw. apply Hin in Hw. apply StronglySorted_inv in Hs.
  destruct Hs as [_ Hx]. rewrite Forall_forall in Hx.
  destruct Hw as [<-|Hw]; [unfold number_le; lia|now apply Hx].
Qed.

Lemma hd_sort_none {A : Type} (le : A -> A -> bool) (l : list A) :
  hd_error (sort le l) = None -> l = [].
Proof.
  intros H. pose proof (sort_length le l) as Hl.
  destruct (sort le l); [|discriminate].
  destruct l; [reflexivity|discriminate].
Qed.

Lemma listing_none (ui : UI) (t : Task) :
  get_task ui = Some t ->
  versions_of (db ui) t (current_take_name ui) = [] ->
  listing ui = [].
Proof.
  intros Ht Hnone. unfold listing. rewrite Ht.
  destruct (String.eqb _ _); [reflexivity|].
  unfold list_versions_reference, candidates. rewrite Hnone.
  destruct (show_published_only ui); simpl; now rewrite firstn_nil.
Qed.

Lemma update_status_none (ui : UI) :
  listing ui = [] ->
  statuses_currentIndex (update_previous_versions_tableWidget ui)
  = statuses_currentIndex ui.
Proof.
  unfold update_previous_versions_tableWidget, listing.
  change (get_task (clear_previous_versions_tableWidget ui)) with (get_task ui).
  change (current_take_name (clear_previous_versions_tableWidget ui))
    with (current_take_name ui).
  destruct (get_task ui) as [t|]; [|reflexivity].
  destruct (String.eqb (current_take_name ui) EmptyString); [reflexivity|].
  fold (pair_query t (current_take_name ui)). cbv zeta.
  rewrite all_listing. intros H. unfold list_versions_reference in H.
  change (version_count (clear_previous_versions_tableWidget ui))
    with (version_count ui).
  change (db (clear_previous_versions_tableWidget ui)) with (db ui).
  change (show_published_only (clear_previous_versions_tableWidget ui))
    with (show_published_only ui).
  now rewrite H.
Qed.

(** A rebuild as a whole: the cache is the listing, no row is current,
    and the status is set from the last version listed, if any. *)
Lemma update_unfold (ui : UI) :
  update_previous_versions_tableWidget ui
  = match py_getitem (listing ui) (-1) with
    | Some last_version =>
        set_status (status last_version) (with_versions (listing ui) (-1) ui)
    | None => with_versions (listing ui) (-1) ui
    end.
Proof.
  unfold update_previous_versions_tableWidget, listing.
  change (get_task (clear_previous_versions_tableWidget ui)) with (get_task ui).
  change (current_take_name (clear_previous_versions_tableWidget ui))
    with (current_take_name ui).
  destruct (get_task ui) as [t|]; [|reflexivity].
  destruct (String.eqb (current_take_name ui) EmptyString); [reflexivity|].
  fold (pair_query t (current_take_name ui)). cbv zeta.
  rewrite all_listing. reflexivity.
Qed.

(** A rebuild alone, as a change of the published-only box or of the
    count triggers it, shows the status of the last version listed. *)
Lemma update_status_shown (ui : UI) (front : list Version) (v : Version) :
  listing ui = (front ++ [v])%list ->
  In (status_name (status v)) (statuses_comboBox ui) ->
  current_status (update_previous_versions_tableWidget ui)
  = Some (status_name (status v)).
Proof.
  intros Hl Hin. rewrite update_unfold, Hl, py_getitem_last_snoc.
  now apply set_status_shown.
Qed.

(** C2 (as amended): after a change of take with a task selected, the
    status shown is the status of the version with the highest number
    among all the versions of the task and take, whatever published-only
    and the count are, as long as the combo box has an entry of that
    name; when the task and take have no version at all the status
    shown is left as it was. *)
Theorem take_change_status (ui : UI) (t : Task) :
  get_task ui = Some t ->
  let ui' := takes_listWidget_changed ui in
  let of_pair := versions_of (db ui) t (current_take_name ui) in
  (of_pair = [] -> statuses_currentIndex ui' = statuses_currentIndex ui) /\
  (of_pair <> [] ->
   exists newest,
     In newest of_pair /\
     (forall w, In w of_pair -> number_le w newest) /\
     (In (status_name (status newest)) (statuses_comboBox ui) ->
      current_status ui' = Some (status_name (status newest)))).
Proof.
  intros Ht ui' of_pair. subst ui'. unfold takes_listWidget_changed.
  destruct (update_frame ui) as (Hd & Htree & Htc & Hl & Hlc & _ & _ & Hs & _).
  cbv zeta in *.
  set (ui1 := update_previous_versions_tableWidget ui) in *.
  rewrite (get_task_frame ui ui1 Htree Htc), Ht.
  rewrite (current_take_name_frame ui ui1 Hl Hlc), Hd.
  fold (pair_query t (current_take_name ui)). rewrite first_newest.
  fold of_pair. split.
  - intros Hnone. rewrite Hnone. simpl. unfold ui1.
    apply update_status_none. now apply (listing_none ui t).
  - intros Hsome.
    destruct (hd_error (sort version_number_desc of_pair)) as [v|] eqn:Hhd.
    + destruct (hd_sort_desc_newest _ _ Hhd) as [Hin Hmax].
      exists v. repeat split; [exact Hin|exact Hmax|].
      intros Hname. apply set_status_shown. now rewrite Hs.
    + now apply hd_sort_none in Hhd.
Qed.

Lemma take_change_status_witness :
  get_task published_dialog = Some comp /\
  exists newest,
    In newest (versions_of (db published_dialog) comp "Main") /\
    (forall w, In w (versions_of (db published_dialog) comp "Main") ->
               number_le w newest) /\
    (In (status_name (status newest)) (statuses_comboBox published_dialog) ->
     current_status (takes_listWidget_changed published_dialog)
     = Some (status_name (status newest))).
Proof.
  split; [reflexivity|].
  apply (take_change_status published_dialog comp eq_refl). discriminate.
Defined.

(** C2 (as stated) fails.  With published-only set the list shown holds
    version 4 alone, whose status is Completed, and the status shown is
    WIP, that of the unpublished version 5; and when nothing is
    published the list is empty and the status still moves to WIP. *)
Lemma take_change_status_not_of_shown :
  (versions (takes_listWidget_changed published_dialog) = [v4] /\
   status_name (status v4) = "Completed"%string /\
   current_status (takes_listWidget_changed published_dialog)
   = Some "WIP"%string) /\
  (versions (takes_listWidget_changed unpublished_dialog) = [] /\
   current_status unpublished_dialog = Some "New"%string /\
   current_status (takes_listWidget_changed unpublished_dialog)
   = Some "WIP"%string).
Proof. repeat split. Qed.

(** ** The version under the cursor *)

Lemma listing_sorted (ui : UI) : StronglySorted number_le (listing ui).
Proof.
  unfold listing. destruct (get_task ui); [|constructor].
  destruct (String.eqb _ _); [constructor|apply reference_sorted].
Qed.

(** C10: with no row selected ([currentRow] is -1) [get_previous_version]
    returns the last element of the cache, and [None] only when the
    cache is empty; the cache being ascending by version number, as a
    rebuild leaves it, that element is the one with the highest number. *)
Theorem get_previous_version_no_row (ui : UI) :
  currentRow ui = (-1)%Z ->
  (get_previous_version ui = None <-> versions ui = []) /\
  (forall v, get_previous_version ui = Some v ->
             exists front, versions ui = (front ++ [v])%list) /\
  (StronglySorted number_le (versions ui) ->
   forall v, get_previous_version ui = Some v ->
             forall w, In w (versions ui) -> number_le w v).
Proof.
  intros Hrow. unfold get_previous_version. rewrite Hrow.
  destruct (py_getitem_last (versions ui))
    as [[Hnil Hget]|(front & x & Heq & Hget)]; rewrite Hget.
  - repeat split; try discriminate; auto.
  - split; [|split].
    + split; [discriminate|]. intros H. rewrite H in Heq.
      now destruct front.
    + intros v [= <-]. now exists front.
    + intros Hs v [= <-] w Hw. rewrite Heq in Hs, Hw.
      apply in_app_or in Hw. destruct Hw as [Hw|[<-|[]]].
      * apply (StronglySorted_app_inv _ _ _ Hs w x Hw). now left.
      * unfold number_le. lia.
Qed.

Lemma get_previous_version_no_row_witness :
  let ui := update_previous_versions_tableWidget listing_dialog in
  currentRow ui = (-1)%Z /\
  (get_previous_version ui = Some v5 ->
   exists front, versions ui = (front ++ [v5])%list).
Proof.
  split; [reflexivity|].
  apply (get_previous_version_no_row
           (update_previous_versions_tableWidget listing_dialog)).
  reflexivity.
Defined.

Example get_previous_version_newest :
  get_previous_version (update_previous_versions_tableWidget listing_dialog)
  = Some v5.
Proof. reflexivity. Qed.

(** ** Selections *)

Lemma find_entity_from_nth (entity : Entity) (items : list Entity) :
  forall n i, find_entity_from n entity items = Some i ->
              exists k, i = (n + k)%nat /\ nth_error items k = Some entity.
Proof.
  induction items as [|e r IH]; simpl; intros n i; [discriminate|].
  destruct (String.eqb _ _ && Entity_eqb e entity)%bool eqn:Hb.
  - intros [= <-]. exists 0%nat. split; [lia|].
    apply Bool.andb_true_iff in Hb. destruct Hb as [_ Hb].
    unfold Entity_eqb in Hb. now destruct (Entity_eq_dec e entity) as [->|].
  - intros H. destruct (IH _ _ H) as (k & -> & Hk).
    exists (S k). split; [lia|exact Hk].
Qed.

Lemma find_entity_item_nth (entity : Entity) (ui : UI) (i : nat) :
  find_entity_item_in_tree_widget entity ui = Some i ->
  nth_error (tasks_treeWidget ui) i = Some entity.
Proof.
  intros H. destruct (find_entity_from_nth _ _ _ _ H) as (k & -> & Hk).
  exact Hk.
Qed.

Lemma findItems_from_nth (text : string) (l : list string) :
  forall n i, In i (findItems_from n text l) ->
              exists k, i = (n + k)%nat /\ nth_error l k = Some text.
Proof.
  induction l as [|x r IH]; simpl; intros n i; [contradiction|].
  destruct (String.eqb_spec x text) as [->|Hne].
  - intros [<-|H].
    + exists 0%nat. split; [lia|reflexivity].
    + destruct (IH _ _ H) as (k & -> & Hk). exists (S k). split; [lia|exact Hk].
  - intros H. destruct (IH _ _ H) as (k & -> & Hk).
    exists (S k). split; [lia|exact Hk].
Qed.

Lemma findItems_from_in (text : string) (l : list string) :
  In text l -> forall n, findItems_from n text l <> [].
Proof.
  induction l as [|x r IH]; simpl; [contradiction|]. intros Hin n.
  destruct (String.eqb_spec x text) as [->|Hne]; [discriminate|].
  destruct Hin as [Hx|Hin]; [contradiction|]. now apply IH.
Qed.

Lemma findItems_hd_nth (text : string) (ui : UI) (i : nat) (rest : list nat) :
  findItems text ui = i :: rest ->
  nth_error (takes_listWidget ui) i = Some text.
Proof.
  intros H. unfold findItems in H.
  destruct (findItems_from_nth text (takes_listWidget ui) 0 i) as (k & -> & Hk);
    [rewrite H; now left|exact Hk].
Qed.

Lemma index_of_version_absent (version : Version) (l : list Version) :
  ~ In version l -> forall i, index_of_version i version l = (-1)%Z.
Proof.
  induction l as [|x r IH]; simpl; intros Hn i; [reflexivity|].
  unfold Version_eqb. destruct (Version_eq_dec x version) as [->|_].
  - exfalso. apply Hn. now left.
  - apply IH. intros H. apply Hn. now right.
Qed.

Lemma index_of_version_present (version : Version) (l : list Version) :
  In version l ->
  forall i, (0 <= i)%Z ->
            exists k, index_of_version i version l = (i + Z.of_nat k)%Z /\
                      nth_error l k = Some version.
Proof.
  induction l as [|x r IH]; simpl; intros Hin i Hi; [contradiction|].
  unfold Version_eqb. destruct (Version_eq_dec x version) as [->|Hne].
  - exists 0%nat. split; [simpl; lia|reflexivity].
  - destruct Hin as [Hx|Hin]; [contradiction|].
    destruct (IH Hin (i + 1)%Z) as (k & Hk & Hnth); [lia|].
    exists (S k). split; [rewrite Hk; lia|exact Hnth].
Qed.

(** What setting the current take does: nothing when the take is
    current already, and otherwise a rebuild, which leaves no row
    selected. *)
Lemma takes_setCurrentItem_spec (i : option nat) (ui : UI) :
  let ui' := takes_setCurrentItem i ui in
  db ui' = db ui /\ tasks_treeWidget ui' = tasks_treeWidget ui /\
  tasks_currentItem ui' = tasks_currentItem ui /\
  takes_listWidget ui' = takes_listWidget ui /\
  takes_currentItem ui' = i /\
  (takes_currentItem ui = i -> ui' = ui) /\
  (takes_currentItem ui <> i -> currentRow ui' = (-1)%Z).
Proof.
  unfold takes_setCurrentItem.
  assert (Hfire :
    let ui' := takes_listWidget_changed (with_takes (takes_listWidget ui) i ui) in
    takes_currentItem ui <> i ->
    db ui' = db ui /\ tasks_treeWidget ui' = tasks_treeWidget ui /\
    tasks_currentItem ui' = tasks_currentItem ui /\
    takes_listWidget ui' = takes_listWidget ui /\
    takes_currentItem ui' = i /\
    (takes_currentItem ui = i -> ui' = ui) /\
    (takes_currentItem ui <> i -> currentRow ui' = (-1)%Z)).
  { intros ui' Hne. subst ui'.
    destruct (changed_frame (with_takes (takes_listWidget ui) i ui))
      as (-> & -> & -> & -> & -> & _ & -> & _).
    repeat split; try reflexivity. intros H. contradiction. }
  cbv zeta in Hfire.
  destruct i as [a|], (takes_currentItem ui) as [b|] eqn:Hcur.
  - destruct (Nat.eqb_spec a b) as [->|Hne].
    + repeat split; try assumption; try reflexivity. intros H. congruence.
    + apply Hfire. congruence.
  - apply Hfire. discriminate.
  - apply Hfire. discriminate.
  - repeat split; try assumption; try reflexivity. intros H. congruence.
Qed.

(** What selecting a task node does. *)
Lemma tasks_treeWidget_changed_task (ui : UI) (i : nat) (t : Task) :
  tasks_currentItem ui = Some i ->
  nth_error (tasks_treeWidget ui) i = Some (ETask t) ->
  let ui' := tasks_treeWidget_changed ui in
  tasks_treeWidget ui' = tasks_treeWidget ui /\
  tasks_currentItem ui' = Some i /\
  currentRow ui' = (-1)%Z.
Proof.
  intros Hcur Hnth. unfold tasks_treeWidget_changed. rewrite Hcur, Hnth.
  cbv zeta.
  assert (Hclear : tasks_treeWidget (takes_clear ui) = tasks_treeWidget ui /\
                   tasks_currentItem (takes_clear ui) = Some i /\
                   takes_currentItem (takes_clear ui) = None).
  { unfold takes_clear.
    destruct (takes_setCurrentItem_spec None ui) as (_ & Ht & Htc & _).
    unfold with_takes.
    cbn [tasks_treeWidget tasks_currentItem takes_currentItem].
    rewrite Ht, Htc, Hcur. repeat split. }
  destruct Hclear as (Ht & Htc & Hnone).
  set (ui1 := takes_clear ui) in *. clearbody ui1.
  set (takes := if existsb _ _ then _ else _). clearbody takes.
  set (ui2 := match takes with [] => _ | _ => _ end).
  assert (H2 : tasks_treeWidget ui2 = tasks_treeWidget ui /\
               tasks_currentItem ui2 = Some i /\
               takes_currentItem ui2 = None /\
               takes_item0 ui2 = Some 0%nat).
  { unfold ui2, takes_addItems, takes_item0, with_takes.
    destruct takes as [|x r];
      cbn [tasks_treeWidget tasks_currentItem takes_currentItem
           takes_listWidget];
      rewrite Ht, Htc, Hnone.
    - destruct (takes_listWidget ui1); repeat split.
    - repeat split.
      destruct (takes_listWidget ui1 ++ x :: r)%list eqn:Happ; [|reflexivity].
      now destruct (takes_listWidget ui1). }
  destruct H2 as (Ht2 & Htc2 & Hnone2 & Hitem).
  destruct (takes_setCurrentItem_spec (takes_item0 ui2) ui2)
    as (_ & -> & -> & _ & _ & _ & Hrow).
  repeat split; try assumption. apply Hrow. rewrite Hnone2, Hitem. discriminate.
Qed.

Lemma tasks_setCurrentItem_spec (ui : UI) (i : nat) (t : Task) :
  nth_error (tasks_treeWidget ui) i = Some (ETask t) ->
  let ui' := tasks_setCurrentItem i ui in
  tasks_treeWidget ui' = tasks_treeWidget ui /\
  tasks_currentItem ui' = Some i /\
  (tasks_currentItem ui = Some i -> ui' = ui) /\
  (tasks_currentItem ui <> Some i -> currentRow ui' = (-1)%Z).
Proof.
  intros Hnth. unfold tasks_setCurrentItem.
  assert (Hfire :
    let ui' := tasks_treeWidget_changed (with_tasks_currentItem (Some i) ui) in
    tasks_currentItem ui <> Some i ->
    tasks_treeWidget ui' = tasks_treeWidget ui /\
    tasks_currentItem ui' = Some i /\
    (tasks_currentItem ui = Some i -> ui' = ui) /\
    (tasks_currentItem ui <> Some i -> currentRow ui' = (-1)%Z)).
  { intros ui' Hne. subst ui'.
    destruct (tasks_treeWidget_changed_task
                (with_tasks_currentItem (Some i) ui) i t eq_refl Hnth)
      as (-> & -> & ->).
    repeat split. intros H. contradiction. }
  cbv zeta in Hfire.
  destruct (tasks_currentItem ui) as [b|] eqn:Hcur.
  - destruct (Nat.eqb_spec i b) as [->|Hne].
    + repeat split; try assumption. intros H. congruence.
    + apply Hfire. congruence.
  - apply Hfire. discriminate.
Qed.

Lemma option_eq_dec_nat (a b : option nat) : {a = b} + {a <> b}.
Proof. decide equality. apply Nat.eq_dec. Qed.

(** ** Restoring the dialog *)

(** [restore_ui] raises in one case only: the version is of an active
    project, its task has a node in the tree, and no entry of the take
    list carries its take name. *)
Lemma restore_ui_raises (version : option Version) (ui : UI) :
  raises (restore_ui version ui) = true <->
  exists v item,
    version = Some v /\ active (project (task v)) = true /\
    find_entity_item_in_tree_widget (ETask (task v)) ui = Some item /\
    findItems (take_name v) (tasks_setCurrentItem item ui) = [].
Proof.
  unfold restore_ui. split.
  - destruct version as [v|]; [|discriminate].
    destruct (active (project (task v))) eqn:Ha; [|discriminate]. simpl.
    destruct (find_entity_item_in_tree_widget _ ui) as [item|] eqn:Hf;
      [|discriminate].
    destruct (findItems _ _) eqn:Hi.
    + intros _. now exists v, item.
    + destruct (negb _); discriminate.
  - intros (v & item & -> & Ha & Hf & Hi). now rewrite Ha, Hf, Hi.
Qed.

Lemma restore_ui_found (version : Version) (ui : UI)
    (item item0 : nat) (rest : list nat) :
  active (project (task version)) = true ->
  find_entity_item_in_tree_widget (ETask (task version)) ui = Some item ->
  findItems (take_name version) (tasks_setCurrentItem item ui)
  = item0 :: rest ->
  restore_ui (Some version) ui
  = let ui2 :=
      takes_setCurrentItem (Some item0) (tasks_setCurrentItem item ui) in
    let index := index_of_version 0 version (versions ui2) in
    if negb (Z.eqb index (-1))
    then Returned (with_versions (versions ui2) index ui2)
    else Returned ui2.
Proof.
  intros Ha Hf Hi. unfold restore_ui. rewrite Ha, Hf. simpl negb.
  cbv iota zeta. now rewrite Hi.
Qed.

(** C8 (as amended): when the version restored is of an active project,
    its task has a node in the tree, its take has an entry in the take
    list and the version is not in the list of versions shown once both
    are selected, [restore_ui] returns with the task node and the take
    entry selected and selects no row itself.  No row is selected when
    the task node or the take entry was not the current one before (the
    rebuild clears the row); when both were current already nothing is
    rebuilt and the dialog, with the row selected before, is left as it
    was. *)
Theorem restore_ui_version_not_shown (version : Version) (ui : UI)
    (item item0 : nat) (rest : list nat) :
  active (project (task version)) = true ->
  find_entity_item_in_tree_widget (ETask (task version)) ui = Some item ->
  findItems (take_name version) (tasks_setCurrentItem item ui)
  = item0 :: rest ->
  let ui' := ui_of (restore_ui (Some version) ui) in
  ~ In version (versions ui') ->
  restore_ui (Some version) ui = Returned ui' /\
  get_task ui' = Some (task version) /\
  takes_current ui' = Some (take_name version) /\
  (tasks_currentItem ui <> Some item \/
   takes_currentItem (tasks_setCurrentItem item ui) <> Some item0 ->
   currentRow ui' = (-1)%Z) /\
  (tasks_currentItem ui = Some item -> takes_currentItem ui = Some item0 ->
   ui' = ui).
Proof.
  intros Ha Hf Hi ui'. subst ui'.
  rewrite (restore_ui_found version ui item item0 rest Ha Hf Hi).
  pose proof (find_entity_item_nth _ _ _ Hf) as Hnth.
  destruct (tasks_setCurrentItem_spec ui item (task version) Hnth)
    as (Ht1 & Hc1 & Hsame1 & Hrow1).
  pose proof (findItems_hd_nth _ _ _ _ Hi) as Htake.
  generalize dependent (tasks_setCurrentItem item ui). intros ui1 _ **.
  destruct (takes_setCurrentItem_spec (Some item0) ui1)
    as (_ & Ht2 & Hc2 & Hl2 & Hlc2 & Hsame2 & Hrow2).
  cbv zeta.
  generalize dependent (takes_setCurrentItem (Some item0) ui1). intros ui2 **.
  cbv zeta in *.
  destruct (in_dec Version_eq_dec version (versions ui2)) as [Hin|Hn].
  - exfalso.
    destruct (index_of_version_present _ _ Hin 0%Z) as (k & Hk & _); [lia|].
    rewrite Hk in H.
    replace (negb (0 + Z.of_nat k =? -1)%Z) with true in H
      by (symmetry; apply Bool.negb_true_iff, Z.eqb_neq; lia).
    now apply H.
  - rewrite (index_of_version_absent _ _ Hn).
    change (negb (-1 =? -1)%Z) with false. cbv iota. cbn [ui_of].
    split; [reflexivity|]. split; [|split; [|split]].
    + unfold get_task. now rewrite Hc2, Ht2, Hc1, Ht1, Hnth.
    + unfold takes_current. now rewrite Hlc2, Hl2.
    + intros [Hne|Hne].
      * destruct (option_eq_dec_nat (takes_currentItem ui1) (Some item0))
          as [He|He].
        -- rewrite (Hsame2 He). now apply Hrow1.
        -- now apply Hrow2.
      * now apply Hrow2.
    + intros H1 H2. specialize (Hsame1 H1).
      rewrite Hsame2; [exact Hsame1|]. now rewrite Hsame1.
Qed.

Lemma restore_ui_version_not_shown_witness :
  active (project (task v1)) = true /\
  find_entity_item_in_tree_widget (ETask (task v1)) fresh_dialog
  = Some 1%nat /\
  findItems (take_name v1) (tasks_setCurrentItem 1 fresh_dialog)
  = [0%nat] /\
  ~ In v1 (versions (ui_of (restore_ui (Some v1) fresh_dialog))) /\
  restore_ui (Some v1) fresh_dialog
  = Returned (ui_of (restore_ui (Some v1) fresh_dialog)) /\
  get_task (ui_of (restore_ui (Some v1) fresh_dialog)) = Some (task v1) /\
  takes_current (ui_of (restore_ui (Some v1) fresh_dialog))
  = Some (take_name v1) /\
  (tasks_currentItem fresh_dialog <> Some 1%nat \/
   takes_currentItem (tasks_setCurrentItem 1 fresh_dialog) <> Some 0%nat ->
   currentRow (ui_of (restore_ui (Some v1) fresh_dialog)) = (-1)%Z) /\
  (tasks_currentItem fresh_dialog = Some 1%nat ->
   takes_currentItem fresh_dialog = Some 0%nat ->
   ui_of (restore_ui (Some v1) fresh_dialog) = fresh_dialog).
Proof.
  assert (Hn : ~ In v1 (versions (ui_of (restore_ui (Some v1) fresh_dialog)))).
  { vm_compute. intros [H|[H|[H|[]]]]; discriminate H. }
  split; [reflexivity|]. split; [reflexivity|]. split; [reflexivity|].
  split; [exact Hn|].
  apply (restore_ui_version_not_shown v1 fresh_dialog 1 0 []);
    [reflexivity | reflexivity | reflexivity | exact Hn].
Defined.

(** In a dialog that has just been filled, restoring version 1 with a
    count of 3 selects the task and the take Main, lists 3, 4, 5 and
    selects no row. *)
Example restore_ui_outside_window :
  let ui' := ui_of (restore_ui (Some v1) fresh_dialog) in
  get_task ui' = Some comp /\
  takes_current ui' = Some "Main"%string /\
  map version_number (versions ui') = [3; 4; 5]%Z /\
  currentRow ui' = (-1)%Z.
Proof. repeat split. Qed.

(** C8 (as stated) fails.  The task and the take Main are current, the
    list shows 3, 4, 5 and the user has selected the row of version 5.
    Restoring version 1, which is not in the list, changes neither
    selection, so nothing is rebuilt, and the row of version 5 stays
    selected. *)
Lemma restore_ui_keeps_row :
  restore_ui (Some v1) row_dialog = Returned row_dialog /\
  versions row_dialog = [v3; v4; v5] /\
  versions row_dialog = listing row_dialog /\
  ~ In v1 (versions row_dialog) /\
  get_task row_dialog = Some (task v1) /\
  takes_current row_dialog = Some (take_name v1) /\
  currentRow row_dialog = 2%Z /\
  get_previous_version row_dialog = Some v5.
Proof.
  repeat split. vm_compute. intros [H|[H|[H|[]]]]; discriminate H.
Qed.

(** C3: [restore_ui] raises when the take of the version has no entry
    in the take list.  The task is current, so selecting its node
    refills nothing, [findItems] finds no entry for the take Alt, and
    [items[0]] raises IndexError. *)
Theorem restore_ui_take_absent_raises :
  active (project (task alt1)) = true /\
  In alt1 (db stale_dialog) /\
  find_entity_item_in_tree_widget (ETask (task alt1)) stale_dialog
  = Some 1%nat /\
  findItems (take_name alt1) stale_dialog = [] /\
  restore_ui (Some alt1) stale_dialog = Raised IndexError stale_dialog.
Proof.
  split; [reflexivity|]. split; [right; now left|].
  split; [reflexivity|]. split; reflexivity.
Qed.

(** The other cases of the restoration return: no version, a version
    of an inactive project, a task without a node in the tree. *)
Lemma restore_ui_silent (version : option Version) (ui : UI) :
  (version = None \/
   (exists v, version = Some v /\
      (active (project (task v)) = false \/
       find_entity_item_in_tree_widget (ETask (task v)) ui = None))) ->
  restore_ui version ui = Returned ui.
Proof.
  unfold restore_ui. intros [->|(v & -> & [Ha|Hf])]; [reflexivity| |].
  - now rewrite Ha.
  - rewrite Hf. now destruct (negb _).
Qed.

(** ** Adding a take *)

Lemma mark_current_texts (cur : option nat) (l : list string) :
  forall n, map fst (mark_current n cur l) = l.
Proof.
  induction l as [|x r IH]; intros n; simpl; [reflexivity|]. now rewrite IH.
Qed.

Lemma text_leb_total (a b : string * bool) :
  text_leb a b = true \/ text_leb b a = true.
Proof. apply String.leb_total. Qed.

Lemma Sorted_texts (l : list (string * bool)) :
  Sorted (fun a b => text_leb a b = true) l -> Sorted text_le (map fst l).
Proof.
  induction 1 as [|a l _ IH Hd]; simpl; constructor; [exact IH|].
  destruct Hd; simpl; constructor. assumption.
Qed.

Lemma takes_sortItems_spec (ui : UI) :
  let ui' := takes_sortItems ui in
  Permutation (takes_listWidget ui') (takes_listWidget ui) /\
  Sorted text_le (takes_listWidget ui').
Proof.
  unfold takes_sortItems, with_takes. cbn [takes_listWidget]. split.
  - rewrite <- (mark_current_texts (takes_currentItem ui) (takes_listWidget ui) 0)
      at 2.
    apply Permutation_map, sort_perm.
  - apply Sorted_texts, sort_sorted, text_leb_total.
Qed.

Lemma existsb_text (text : string) (l : list string) :
  existsb (fun x => String.eqb x text) l = true <-> In text l.
Proof.
  rewrite existsb_exists. split.
  - intros (x & Hin & Heq). apply String.eqb_eq in Heq. now subst.
  - intros Hin. exists text. split; [exact Hin|apply String.eqb_refl].
Qed.

(** C6 (as amended): when the answer is ASCII text and its normalized
    take name is already an entry of the take list, adding the take
    inserts nothing and leaves the selection where it was: the dialog
    is not changed at all, and the selection is not moved to the
    matching entry.  The answer is taken among the ASCII texts because
    the conditioning is embedded exactly for those. *)
Theorem add_take_present (raw : string) (ok : bool) (ui : UI) :
  all_chars is_ascii raw = true ->
  In (normalize raw) (takes_listWidget ui) ->
  let ui' := ui_of (add_take_toolButton_clicked (raw, ok) ui) in
  takes_listWidget ui' = takes_listWidget ui /\
  takes_currentItem ui' = takes_currentItem ui /\
  ui' = ui.
Proof.
  intros _ Hin. unfold add_take_toolButton_clicked.
  destruct (takes_current ui); [|repeat split].
  destruct ok; [|repeat split].
  destruct (negb (String.eqb raw EmptyString)); [|repeat split].
  apply existsb_text in Hin. cbv zeta. rewrite Hin. repeat split.
Qed.

Lemma add_take_present_witness :
  all_chars is_ascii "main" = true /\
  In (normalize "main") (takes_listWidget two_takes_dialog) /\
  takes_listWidget
    (ui_of (add_take_toolButton_clicked ("main"%string, true) two_takes_dialog))
  = takes_listWidget two_takes_dialog /\
  takes_currentItem
    (ui_of (add_take_toolButton_clicked ("main"%string, true) two_takes_dialog))
  = takes_currentItem two_takes_dialog /\
  ui_of (add_take_toolButton_clicked ("main"%string, true) two_takes_dialog)
  = two_takes_dialog.
Proof.
  split; [reflexivity|]. split; [right; left; reflexivity|].
  apply (add_take_present "main" true two_takes_dialog);
    [reflexivity | right; left; reflexivity].
Defined.

(** C6 (as stated) fails: with the takes Alt and Main, Alt being the
    current one, the answer [main] normalizes to Main, which is in the
    list; nothing is inserted and Alt stays the current take. *)
Lemma add_take_present_keeps_selection :
  let ui' :=
    ui_of (add_take_toolButton_clicked ("main"%string, true) two_takes_dialog) in
  normalize "main" = "Main"%string /\
  In (normalize "main") (takes_listWidget two_takes_dialog) /\
  takes_listWidget ui' = ["Alt"; "Main"]%string /\
  takes_current ui' = Some "Alt"%string /\
  takes_current ui' <> Some (normalize "main").
Proof.
  repeat split; [right; left; reflexivity | vm_compute; discriminate].
Qed.

(** C1: the guard against an empty take name is applied to the text as
    typed and not to the conditioned one.  The answer of blanks and
    hyphens is not empty, its conditioned form is, and the empty name
    is added to the list and selected. *)
Theorem add_take_blank_inserts_empty :
  let ui' :=
    ui_of (add_take_toolButton_clicked ("  ---  "%string, true) main_dialog) in
  normalize "  ---  " = EmptyString /\
  takes_listWidget main_dialog = ["Main"]%string /\
  takes_listWidget ui' = [EmptyString; "Main"%string] /\
  takes_current main_dialog = Some "Main"%string /\
  takes_current ui' = Some EmptyString.
Proof. repeat split. Qed.

(** The same for every answer that is not empty and whose conditioned
    form is: unless the list has an empty entry already, it gets one. *)
Lemma add_take_empty_name (raw : string) (ui : UI) :
  takes_current ui <> None ->
  raw <> EmptyString ->
  normalize raw = EmptyString ->
  ~ In EmptyString (takes_listWidget ui) ->
  In EmptyString
     (takes_listWidget (ui_of (add_take_toolButton_clicked (raw, true) ui))).
Proof.
  intros Hcur Hraw Hnorm Hnot. unfold add_take_toolButton_clicked.
  destruct (takes_current ui); [|contradiction].
  apply String.eqb_neq in Hraw. rewrite Hraw, Hnorm. simpl negb. cbv iota zeta.
  replace (existsb (fun text => String.eqb text EmptyString) (takes_listWidget ui))
    with false
    by (symmetry; apply Bool.not_true_is_false;
        intros H; now apply existsb_text in H).
  simpl negb. cbv iota.
  set (ui1 := takes_sortItems (takes_addItems [EmptyString] ui)).
  assert (Hin : In EmptyString (takes_listWidget ui1)).
  { destruct (takes_sortItems_spec (takes_addItems [EmptyString] ui))
      as [Hp _].
    apply (Permutation_in _ (Permutation_sym Hp)).
    unfold takes_addItems, with_takes. cbn [takes_listWidget].
    apply in_or_app. right. now left. }
  destruct (findItems EmptyString ui1);
    cbn [ui_of];
    [exact Hin|].
  now destruct (takes_setCurrentItem_spec (Some n) ui1) as (_ & _ & _ & -> & _).
Qed.

(** C9: with no current take, as on the empty take list that the click
    on a project node leaves, the handler reads the text of the current
    item before it asks for a name and raises AttributeError; the
    answer [foo bar] is never added. *)
Theorem add_take_no_current_raises :
  takes_listWidget project_dialog = [] /\
  takes_current project_dialog = None /\
  normalize "foo bar" = "Foo_Bar"%string /\
  add_take_toolButton_clicked ("foo bar"%string, true) project_dialog
  = Raised AttributeError project_dialog.
Proof. repeat split. Qed.

(** With a current take the rest of C9 holds: a name that is not empty
    once conditioned and is not in the list is added, the list is
    sorted, and the new entry is the current one. *)
Lemma add_take_inserts (raw : string) (ui : UI) :
  takes_current ui <> None ->
  normalize raw <> EmptyString ->
  ~ In (normalize raw) (takes_listWidget ui) ->
  exists ui',
    add_take_toolButton_clicked (raw, true) ui = Returned ui' /\
    Permutation (takes_listWidget ui') (normalize raw :: takes_listWidget ui) /\
    Sorted text_le (takes_listWidget ui') /\
    takes_current ui' = Some (normalize raw).
Proof.
  intros Hcur Hnorm Hnot. unfold add_take_toolButton_clicked.
  destruct (takes_current ui); [|contradiction].
  assert (Hraw : String.eqb raw EmptyString = false).
  { apply String.eqb_neq. intros ->. now apply Hnorm. }
  rewrite Hraw. simpl negb. cbv iota zeta.
  replace (existsb (fun text => String.eqb text (normalize raw))
                   (takes_listWidget ui))
    with false
    by (symmetry; apply Bool.not_true_is_false;
        intros H; now apply existsb_text in H).
  simpl negb. cbv iota.
  destruct (takes_sortItems_spec (takes_addItems [normalize raw] ui))
    as [Hp Hs].
  set (ui1 := takes_sortItems (takes_addItems [normalize raw] ui)) in *.
  assert (Hperm : Permutation (takes_listWidget ui1)
                              (normalize raw :: takes_listWidget ui)).
  { eapply Permutation_trans; [exact Hp|].
    unfold takes_addItems, with_takes. cbn [takes_listWidget].
    apply Permutation_sym, Permutation_cons_append. }
  assert (Hin : In (normalize raw) (takes_listWidget ui1)).
  { apply (Permutation_in _ (Permutation_sym Hperm)). now left. }
  destruct (findItems (normalize raw) ui1) as [|item rest] eqn:Hitems.
  { now apply (findItems_from_in _ _ Hin 0) in Hitems. }
  exists (takes_setCurrentItem (Some item) ui1).
  destruct (takes_setCurrentItem_spec (Some item) ui1)
    as (_ & _ & _ & Hl & Hlc & _).
  split; [reflexivity|]. rewrite Hl. repeat split; try assumption.
  unfold takes_current. rewrite Hlc, Hl.
  now apply (findItems_hd_nth _ _ _ rest).
Qed.

Example add_take_foo_bar :
  let ui' :=
    ui_of (add_take_toolButton_clicked ("foo bar"%string, true) main_dialog) in
  takes_listWidget ui' = ["Foo_Bar"; "Main"]%string /\
  takes_current ui' = Some "Foo_Bar"%string.
Proof. repeat split. Qed.

(* ================================================================== *)
(** * Further properties of the handlers *)

(** ** The conditioned take name *)

(** X1: whatever is typed, the conditioned take name holds ASCII
    letters, digits and underscores only. *)
Theorem normalize_only_word_chars (x : string) :
  all_chars is_word (normalize x) = true.
Proof.
  unfold normalize. apply strip_all_chars.
  apply re_sub_plus_all_chars; [reflexivity|]. apply drop_non_word_word.
Qed.

Lemma length_append (s t : string) :
  String.length (append s t) = (String.length s + String.length t)%nat.
Proof. induction s as [|c r IH]; simpl; [reflexivity|]. now rewrite IH. Qed.

Lemma title_from_length (s : string) :
  forall b, String.length (title_from b s) = String.length s.
Proof.
  induction s as [|c r IH]; intros b; simpl; [reflexivity|].
  destruct (islower c); [|destruct (isupper c)]; simpl; now rewrite IH.
Qed.

Lemma re_sub_plus_length (cls : ascii -> bool) (repl : string) (s : string) :
  (String.length repl <= 1)%nat ->
  forall b, (String.length (re_sub_plus cls repl b s) <= String.length s)%nat.
Proof.
  intros Hrepl. induction s as [|c r IH]; intros b; simpl; [lia|].
  destruct (cls c).
  - rewrite length_append. specialize (IH true).
    destruct b; simpl; lia.
  - simpl. specialize (IH false). lia.
Qed.

Lemma skip_underscores_length (s : string) :
  (String.length (skip_underscores s) <= String.length s)%nat.
Proof.
  induction s as [|c r IH]; simpl; [lia|].
  destruct (is_underscore c); simpl; lia.
Qed.

Lemma strip_length (s : string) :
  (String.length (re_sub_underscores_at_end s) <= String.length s)%nat.
Proof.
  induction s as [|c r IH]; simpl; [lia|].
  destruct (is_underscore c && at_dollar (skip_underscores r))%bool; simpl.
  - pose proof (skip_underscores_length r). lia.
  - lia.
Qed.

(** X2: the conditioned take name is never longer than the text typed. *)
Theorem normalize_no_longer (x : string) :
  (String.length (normalize x) <= String.length x)%nat.
Proof.
  unfold normalize, title.
  eapply Nat.le_trans; [apply strip_length|].
  eapply Nat.le_trans; [apply re_sub_plus_length; simpl; lia|].
  eapply Nat.le_trans; [apply re_sub_plus_length; simpl; lia|].
  eapply Nat.le_trans; [apply re_sub_plus_length; simpl; lia|].
  now rewrite title_from_length.
Qed.

(** X3: the take names that the conditioning leaves as they are, are
    exactly the names in normal form: ASCII letters, digits and
    underscores only, every letter upper-case after a non-letter and
    lower-case after a letter, no two underscores in a row and none at
    the end. *)
Theorem normalize_fixed_points (y : string) :
  normalize y = y <-> normal_take y = true.
Proof.
  split; [|apply normalize_fixed].
  intros H. rewrite <- H. apply normalize_clean_normal, word_is_clean.
  rewrite <- H. apply normalize_word.
Qed.

(** X4: conditioning a take name settles after two passes: for every
    text the second result is in normal form, and a third pass gives
    what the second gave. *)
Theorem normalize_settles (x : string) :
  normal_take (normalize (normalize x)) = true /\
  normalize (normalize (normalize x)) = normalize (normalize x).
Proof.
  assert (H : normal_take (normalize (normalize x)) = true).
  { apply normalize_clean_normal, word_is_clean, normalize_word. }
  split; [exact H|]. now apply normalize_fixed.
Qed.

(** ** The version under the cursor, in general *)

Lemma py_getitem_some_in {A : Type} (l : list A) (i : Z) (x : A) :
  py_getitem l i = Some x -> In x l.
Proof.
  unfold py_getitem.
  destruct (0 <=? i)%Z; [apply nth_error_In|].
  destruct (0 <=? i + Z.of_nat (List.length l))%Z; [apply nth_error_In|].
  discriminate.
Qed.

Lemma py_getitem_none {A : Type} (l : list A) (i : Z) :
  py_getitem l i = None <->
  (Z.of_nat (List.length l) <= i \/ i < - Z.of_nat (List.length l))%Z.
Proof.
  unfold py_getitem.
  destruct (Z.leb_spec 0 i) as [Hi|Hi].
  - rewrite nth_error_None. lia.
  - destruct (Z.leb_spec 0 (i + Z.of_nat (List.length l))) as [Hj|Hj].
    + rewrite nth_error_None. lia.
    + split; [lia|reflexivity].
Qed.

(** X5: [get_previous_version] follows Python's indexing of the cache.
    It returns [None] exactly when the current row is at or beyond the
    length of the cache or below minus the length; a row from 0 gives
    the version at that place, a negative one counts from the end, and
    what is returned is always a version of the cache. *)
Theorem get_previous_version_bounds (ui : UI) :
  let n := Z.of_nat (List.length (versions ui)) in
  (get_previous_version ui = None <->
   (n <= currentRow ui \/ currentRow ui < - n)%Z) /\
  ((0 <= currentRow ui)%Z ->
   get_previous_version ui
   = nth_error (versions ui) (Z.to_nat (currentRow ui))) /\
  ((- n <= currentRow ui < 0)%Z ->
   get_previous_version ui
   = nth_error (versions ui) (Z.to_nat (currentRow ui + n))) /\
  (forall v, get_previous_version ui = Some v -> In v (versions ui)).
Proof.
  unfold get_previous_version. cbv zeta. split; [apply py_getitem_none|].
  split; [|split].
  - intros H. unfold py_getitem.
    now replace (0 <=? currentRow ui)%Z with true
      by (symmetry; apply Z.leb_le; exact H).
  - intros H. unfold py_getitem.
    replace (0 <=? currentRow ui)%Z with false
      by (symmetry; apply Z.leb_gt; lia).
    now replace (0 <=? currentRow ui + Z.of_nat (List.length (versions ui)))%Z
      with true by (symmetry; apply Z.leb_le; lia).
  - intros v. apply py_getitem_some_in.
Qed.

(** ** The status combo box *)

Lemma findText_from_absent (text : string) (l : list string) :
  ~ In text l -> forall n, findText_from n text l = (-1)%Z.
Proof.
  induction l as [|x r IH]; simpl; intros Hn n; [reflexivity|].
  destruct (String.eqb_spec x text) as [->|_].
  - exfalso. apply Hn. now left.
  - apply IH. intros H. apply Hn. now right.
Qed.

(** X6: [set_status] shows a status whose name is an entry of the combo
    box, and changes nothing at all when the combo box has no entry of
    that name; either way it touches nothing but the current index. *)
Theorem set_status_lookup (s : Status) (ui : UI) :
  (In (status_name s) (statuses_comboBox ui) ->
   current_status (set_status s ui) = Some (status_name s)) /\
  (~ In (status_name s) (statuses_comboBox ui) -> set_status s ui = ui) /\
  with_statuses_currentIndex (statuses_currentIndex ui) (set_status s ui) = ui.
Proof.
  split; [apply set_status_shown|]. split.
  - intros Hn. unfold set_status, findText.
    now rewrite (findText_from_absent _ _ Hn).
  - unfold set_status. destruct (negb _); now destruct ui.
Qed.

(** ** Finding the node of an entity *)

Lemma find_entity_from_none (entity : Entity) (items : list Entity) :
  forall n, find_entity_from n entity items = None <-> ~ In entity items.
Proof.
  induction items as [|e r IH]; intros n; simpl; [tauto|].
  unfold Entity_eqb. destruct (Entity_eq_dec e entity) as [->|Hne].
  - rewrite String.eqb_refl. simpl. split; [discriminate|].
    intros H. exfalso. apply H. now left.
  - rewrite Bool.andb_false_r, IH. tauto.
Qed.

Lemma find_entity_from_first (entity : Entity) (items : list Entity) :
  forall n i, find_entity_from n entity items = Some i ->
              forall k, (n + k < i)%nat -> nth_error items k <> Some entity.
Proof.
  induction items as [|e r IH]; simpl; intros n i; [discriminate|].
  unfold Entity_eqb. destruct (Entity_eq_dec e entity) as [->|Hne].
  - rewrite String.eqb_refl. simpl. intros [= <-] k Hk. lia.
  - rewrite Bool.andb_false_r. intros H [|k] Hk; simpl.
    + congruence.
    + apply (IH _ _ H). lia.
Qed.

(** X7: [find_entity_item_in_tree_widget] finds a node exactly when
    the tree has one for the entity; the node it returns carries the
    entity and is the first one that does. *)
Theorem find_entity_item_in_tree_widget_spec (entity : Entity) (ui : UI) :
  (find_entity_item_in_tree_widget entity ui = None <->
   ~ In entity (tasks_treeWidget ui)) /\
  (forall i, find_entity_item_in_tree_widget entity ui = Some i ->
             nth_error (tasks_treeWidget ui) i = Some entity /\
             forall k, (k < i)%nat ->
                       nth_error (tasks_treeWidget ui) k <> Some entity).
Proof.
  unfold find_entity_item_in_tree_widget. split;
    [apply find_entity_from_none|].
  intros i H. split.
  - destruct (find_entity_from_nth _ _ _ _ H) as (k & -> & Hk). exact Hk.
  - intros k Hk. now apply (find_entity_from_first _ _ _ _ H).
Qed.

(** ** Rebuilding the list of versions *)

Lemma listing_frame (ui ui' : UI) :
  db ui' = db ui -> tasks_treeWidget ui' = tasks_treeWidget ui ->
  tasks_currentItem ui' = tasks_currentItem ui ->
  takes_listWidget ui' = takes_listWidget ui ->
  takes_currentItem ui' = takes_currentItem ui ->
  show_published_only ui' = show_published_only ui ->
  version_count ui' = version_count ui ->
  listing ui' = listing ui.
Proof.
  intros Hd Ht Htc Hl Hlc Hp Hn. unfold listing.
  rewrite (get_task_frame ui ui' Ht Htc),
    (current_take_name_frame ui ui' Hl Hlc), Hd, Hp, Hn.
  reflexivity.
Qed.

Lemma listing_update (ui : UI) :
  listing (update_previous_versions_tableWidget ui) = listing ui.
Proof.
  destruct (update_frame ui) as (Hd & Ht & Htc & Hl & Hlc & _ & _ & _ & Hp & Hn).
  now apply listing_frame.
Qed.

Lemma listing_selected (ui : UI) (t : Task) (take : string) :
  get_task ui = Some t -> takes_current ui = Some take ->
  take <> EmptyString ->
  listing ui
  = list_versions_reference (db ui) t take (show_published_only ui)
      (version_count ui).
Proof.
  intros Ht Htake Hne. unfold listing, current_take_name.
  rewrite Ht, Htake. apply String.eqb_neq in Hne. now rewrite Hne.
Qed.

(** X8: with a task and a take with a non-empty name selected, a rebuild
    lists as many versions as the count allows and the task and take
    have to show: the smaller of the count and the number of versions of
    the task and take (of the published ones when published-only is
    set). *)
Theorem rebuild_length (ui : UI) (t : Task) (take : string) :
  get_task ui = Some t ->
  takes_current ui = Some take ->
  take <> EmptyString ->
  List.length (versions (update_previous_versions_tableWidget ui))
  = Nat.min (Z.to_nat (version_count ui))
      (List.length (candidates (db ui) t take (show_published_only ui))).
Proof.
  intros Ht Htake Hne.
  destruct (update_frame ui) as (_ & _ & _ & _ & _ & -> & _).
  rewrite (listing_selected ui t take Ht Htake Hne).
  unfold list_versions_reference.
  now rewrite length_rev, length_firstn, sort_length.
Qed.

Lemma rebuild_length_witness :
  get_task listing_dialog = Some comp /\
  takes_current listing_dialog = Some "Main"%string /\
  "Main"%string <> EmptyString /\
  List.length (versions (update_previous_versions_tableWidget listing_dialog))
  = Nat.min (Z.to_nat (version_count listing_dialog))
      (List.length (candidates (db listing_dialog) comp "Main"
                      (show_published_only listing_dialog))).
Proof.
  split; [reflexivity|]. split; [reflexivity|]. split; [discriminate|].
  apply (rebuild_length listing_dialog comp "Main");
    [reflexivity | reflexivity | discriminate].
Defined.

Lemma firstn_le_app {A : Type} (n m : nat) (l : list A) :
  (n <= m)%nat -> firstn m l = (firstn n l ++ skipn n (firstn m l))%list.
Proof.
  intros H. rewrite <- (firstn_skipn n (firstn m l)) at 1.
  now rewrite firstn_firstn, Nat.min_l.
Qed.

(** X9: a larger count only adds older versions in front: the list
    shown for a count is the end of the list shown for any larger
    count, whatever is selected. *)
Theorem version_count_changed_suffix (n m : Z) (ui : UI) :
  (0 <= n <= m)%Z ->
  exists older,
    versions (version_count_changed m ui)
    = (older ++ versions (version_count_changed n ui))%list.
Proof.
  intros Hnm. unfold version_count_changed.
  destruct (update_frame (with_settings (show_published_only ui) m ui))
    as (_ & _ & _ & _ & _ & -> & _).
  destruct (update_frame (with_settings (show_published_only ui) n ui))
    as (_ & _ & _ & _ & _ & -> & _).
  unfold listing.
  change (get_task (with_settings (show_published_only ui) m ui))
    with (get_task ui).
  change (get_task (with_settings (show_published_only ui) n ui))
    with (get_task ui).
  destruct (get_task ui) as [t|]; [|now exists []].
  change (current_take_name (with_settings (show_published_only ui) m ui))
    with (current_take_name ui).
  change (current_take_name (with_settings (show_published_only ui) n ui))
    with (current_take_name ui).
  destruct (String.eqb (current_take_name ui) EmptyString); [now exists []|].
  unfold list_versions_reference, with_settings.
  cbn [db show_published_only version_count].
  set (s := sort version_number_desc _).
  exists (rev (skipn (Z.to_nat n) (firstn (Z.to_nat m) s))).
  rewrite <- rev_app_distr. f_equal. apply firstn_le_app. lia.
Qed.

Lemma version_count_changed_suffix_witness :
  (0 <= 3 <= 4)%Z /\
  exists older,
    versions (version_count_changed 4 listing_dialog)
    = (older ++ versions (version_count_changed 3 listing_dialog))%list.
Proof.
  split; [lia|].
  apply (version_count_changed_suffix 3 4 listing_dialog). lia.
Defined.

(** X10: a rebuild repeated changes nothing: the second of two rebuilds
    in a row leaves the dialog as the first left it. *)
Theorem rebuild_idempotent (ui : UI) :
  update_previous_versions_tableWidget
    (update_previous_versions_tableWidget ui)
  = update_previous_versions_tableWidget ui.
Proof.
  rewrite (update_unfold (update_previous_versions_tableWidget ui)).
  rewrite listing_update. rewrite (update_unfold ui).
  destruct (py_getitem (listing ui) (-1)) as [v|]; [|reflexivity].
  unfold set_status, findText.
  cbn [statuses_comboBox with_versions].
  destruct (negb (findText_from 0 (status_name (status v))
                    (statuses_comboBox ui) =? -1)%Z) eqn:Hf.
  - cbn [statuses_comboBox with_statuses_currentIndex with_versions].
    rewrite Hf. reflexivity.
  - cbn [statuses_comboBox with_versions]. rewrite Hf. reflexivity.
Qed.

(** X11: a rebuild on its own, as a change of the count or of the
    published-only box starts it, shows the status of the last version
    it lists when the combo box has an entry of that name, and leaves
    the status as it was when it lists nothing. *)
Theorem rebuild_status (ui : UI) :
  let ui' := update_previous_versions_tableWidget ui in
  (versions ui' = [] -> statuses_currentIndex ui' = statuses_currentIndex ui) /\
  (forall front v,
      versions ui' = (front ++ [v])%list ->
      In (status_name (status v)) (statuses_comboBox ui) ->
      current_status ui' = Some (status_name (status v))).
Proof.
  cbv zeta. destruct (update_frame ui) as (_ & _ & _ & _ & _ & -> & _).
  split.
  - apply update_status_none.
  - intros front v Hl Hin. rewrite update_unfold, Hl, py_getitem_last_snoc.
    now apply set_status_shown.
Qed.

(** ** Selecting a node of the tree *)

Lemma distinct_in (x : string) (l : list string) :
  In x (distinct l) <-> In x l.
Proof.
  induction l as [|y r IH]; simpl; [tauto|].
  rewrite filter_In, IH, Bool.negb_true_iff, String.eqb_neq.
  destruct (string_dec y x) as [->|Hne]; [tauto|].
  split; [tauto|]. intros [H|H]; [contradiction|]. right. split; congruence.
Qed.

Lemma NoDup_filter {A : Type} (f : A -> bool) (l : list A) :
  NoDup l -> NoDup (filter f l).
Proof.
  induction 1 as [|x l Hx _ IH]; simpl; [constructor|].
  destruct (f x); [|exact IH]. constructor; [|exact IH].
  rewrite filter_In. tauto.
Qed.

Lemma distinct_nodup (l : list string) : NoDup (distinct l).
Proof.
  induction l as [|y r IH]; simpl; constructor.
  - rewrite filter_In, Bool.negb_true_iff, String.eqb_neq. tauto.
  - now apply NoDup_filter.
Qed.

Lemma task_takes_in (rows : list Version) (t : Task) (x : string) :
  In x (task_takes rows t) <->
  x = version_take_name \/
  exists v, In v rows /\ task v = t /\ take_name v = x.
Proof.
  assert (Hd : In x (distinct_take_names rows t) <->
               exists v, In v rows /\ task v = t /\ take_name v = x).
  { unfold distinct_take_names. rewrite distinct_in, in_map_iff.
    split; intros (v & H1 & H2).
    - apply filter_In in H2. destruct H2 as [Hin Ht]. exists v.
      unfold Task_eqb in Ht.
      destruct (Task_eq_dec (task v) t); [tauto|discriminate].
    - exists v. split; [tauto|]. apply filter_In. split; [tauto|].
      unfold Task_eqb. destruct (Task_eq_dec (task v) t); tauto. }
  unfold task_takes.
  destruct (existsb _ _) eqn:He.
  - rewrite Hd. split; [tauto|]. intros [->|H]; [|exact H].
    apply Hd. apply existsb_exists in He. destruct He as (y & Hy & Heq).
    apply String.eqb_eq in Heq. now subst y.
  - rewrite in_app_iff, Hd. simpl. intuition congruence.
Qed.

Lemma task_takes_nodup (rows : list Version) (t : Task) :
  NoDup (task_takes rows t).
Proof.
  unfold task_takes. destruct (existsb _ _) eqn:He.
  - apply distinct_nodup.
  - apply NoDup_app; [apply distinct_nodup | repeat constructor; simpl; tauto |].
    intros a Ha [<-|[]].
    assert (existsb (String.eqb version_take_name)
                    (distinct_take_names rows t) = true); [|congruence].
    apply existsb_exists. exists version_take_name.
    split; [exact Ha|apply String.eqb_refl].
Qed.

Lemma task_takes_nonempty (rows : list Version) (t : Task) :
  task_takes rows t <> [].
Proof.
  intros H. assert (Hin : In version_take_name (task_takes rows t)).
  { apply task_takes_in. now left. }
  now rewrite H in Hin.
Qed.

Lemma takes_setCurrentItem_frame (i : option nat) (ui : UI) :
  let ui' := takes_setCurrentItem i ui in
  db ui' = db ui /\ statuses_comboBox ui' = statuses_comboBox ui /\
  show_published_only ui' = show_published_only ui /\
  version_count ui' = version_count ui /\
  (cache_ok ui -> cache_ok ui') /\
  (takes_currentItem ui <> i -> cache_ok ui').
Proof.
  assert (Hfire :
    let ui' := takes_listWidget_changed (with_takes (takes_listWidget ui) i ui) in
    db ui' = db ui /\ statuses_comboBox ui' = statuses_comboBox ui /\
    show_published_only ui' = show_published_only ui /\
    version_count ui' = version_count ui /\
    (cache_ok ui -> cache_ok ui') /\
    (takes_currentItem ui <> i -> cache_ok ui')).
  { cbv zeta.
    destruct (changed_frame (with_takes (takes_listWidget ui) i ui))
      as (Hd & Ht & Htc & Hl & Hlc & Hv & _ & Hs & Hp & Hn).
    assert (Hc : cache_ok (takes_listWidget_changed
                             (with_takes (takes_listWidget ui) i ui))).
    { unfold cache_ok. rewrite Hv. symmetry. now apply listing_frame. }
    repeat split; try assumption; intros _; exact Hc. }
  cbv zeta in *. unfold takes_setCurrentItem.
  destruct i as [a|], (takes_currentItem ui) as [b|] eqn:Hcur;
    try exact Hfire.
  - destruct (Nat.eqb_spec a b) as [->|Hne]; [|exact Hfire].
    repeat split; try easy.
  - repeat split; try easy.
Qed.

Lemma tasks_treeWidget_changed_task_eq (ui : UI) (i : nat) (t : Task) :
  tasks_currentItem ui = Some i ->
  nth_error (tasks_treeWidget ui) i = Some (ETask t) ->
  tasks_treeWidget_changed ui
  = takes_listWidget_changed
      (with_takes (task_takes (db ui) t) (Some 0%nat)
         (takes_setCurrentItem None ui)).
Proof.
  intros Hcur Hnth. unfold tasks_treeWidget_changed. rewrite Hcur, Hnth.
  cbv zeta. unfold takes_clear.
  change (db (with_takes [] None (takes_setCurrentItem None ui)))
    with (db (takes_setCurrentItem None ui)).
  destruct (takes_setCurrentItem_frame None ui) as (-> & _).
  fold (task_takes (db ui) t).
  pose proof (task_takes_nonempty (db ui) t) as Hne.
  destruct (task_takes (db ui) t) as [|x r]; [congruence|].
  reflexivity.
Qed.

(** X12: selecting a task node fills the take list with the take names
    of the versions of that task, each once, and with the default take
    Main; the list is never empty, its first entry becomes the current
    take, and the versions listed are those of the task and that take,
    with no row selected. *)
Theorem task_node_selected (ui : UI) (i : nat) (t : Task) :
  tasks_currentItem ui = Some i ->
  nth_error (tasks_treeWidget ui) i = Some (ETask t) ->
  let ui' := tasks_treeWidget_changed ui in
  (forall x, In x (takes_listWidget ui') <->
             x = version_take_name \/
             exists v, In v (db ui) /\ task v = t /\ take_name v = x) /\
  NoDup (takes_listWidget ui') /\
  takes_listWidget ui' <> [] /\
  takes_currentItem ui' = Some 0%nat /\
  get_task ui' = Some t /\
  cache_ok ui' /\
  currentRow ui' = (-1)%Z.
Proof.
  intros Hcur Hnth. cbv zeta.
  rewrite (tasks_treeWidget_changed_task_eq ui i t Hcur Hnth).
  set (ua := with_takes (task_takes (db ui) t) (Some 0%nat)
               (takes_setCurrentItem None ui)).
  destruct (changed_frame ua) as (Hd & Ht & Htc & Hl & Hlc & Hv & Hr & _ & Hp & Hn).
  destruct (takes_setCurrentItem_spec None ui) as (_ & Ht0 & Htc0 & _).
  rewrite Hl, Hlc. unfold ua at 1 2 3 4. cbn [takes_listWidget with_takes
    takes_currentItem].
  split; [intros x; apply task_takes_in|].
  split; [apply task_takes_nodup|].
  split; [apply task_takes_nonempty|].
  split; [reflexivity|].
  split; [|split; [|exact Hr]].
  - unfold get_task. rewrite Htc, Ht. unfold ua.
    cbn [tasks_currentItem tasks_treeWidget with_takes].
    now rewrite Htc0, Ht0, Hcur, Hnth.
  - unfold cache_ok. rewrite Hv. symmetry. now apply listing_frame.
Qed.

Lemma task_node_selected_witness :
  tasks_currentItem fresh_selected = Some 1%nat /\
  nth_error (tasks_treeWidget fresh_selected) 1 = Some (ETask comp) /\
  takes_currentItem (tasks_treeWidget_changed fresh_selected) = Some 0%nat.
Proof.
  split; [reflexivity|]. split; [reflexivity|].
  apply (task_node_selected fresh_selected 1 comp); reflexivity.
Defined.

Lemma listing_no_task (ui : UI) : get_task ui = None -> listing ui = [].
Proof. unfold listing. now intros ->. Qed.

Lemma listing_no_take (ui : UI) : takes_currentItem ui = None -> listing ui = [].
Proof.
  unfold listing, current_take_name, takes_current. intros ->.
  now destruct (get_task ui).
Qed.

Lemma tasks_treeWidget_changed_project_eq (ui : UI) (i : nat) (p : Project) :
  tasks_currentItem ui = Some i ->
  nth_error (tasks_treeWidget ui) i = Some (EProject p) ->
  tasks_treeWidget_changed ui = takes_clear ui.
Proof.
  intros Hcur Hnth. unfold tasks_treeWidget_changed. now rewrite Hcur, Hnth.
Qed.

(** X13: selecting a project node empties the take list and leaves no
    current take and no task; the versions listed for a take that was
    current are dropped, and a click on the add-take button then raises
    AttributeError whatever is answered. *)
Theorem project_node_selected (ui : UI) (i : nat) (p : Project) :
  tasks_currentItem ui = Some i ->
  nth_error (tasks_treeWidget ui) i = Some (EProject p) ->
  let ui' := tasks_treeWidget_changed ui in
  takes_listWidget ui' = [] /\
  takes_current ui' = None /\
  get_task ui' = None /\
  (takes_currentItem ui <> None ->
   versions ui' = [] /\ currentRow ui' = (-1)%Z) /\
  (forall answer,
      add_take_toolButton_clicked answer ui' = Raised AttributeError ui').
Proof.
  intros Hcur Hnth. cbv zeta.
  rewrite (tasks_treeWidget_changed_project_eq ui i p Hcur Hnth).
  unfold takes_clear.
  destruct (takes_setCurrentItem_spec None ui)
    as (_ & Ht & Htc & Hl & _ & _ & Hrow).
  split; [reflexivity|]. split; [reflexivity|]. split; [|split].
  - unfold get_task, with_takes. cbn [tasks_currentItem tasks_treeWidget].
    now rewrite Htc, Ht, Hcur, Hnth.
  - intros Hne. unfold with_takes. cbn [versions currentRow].
    split; [|now apply Hrow].
    destruct (takes_setCurrentItem_frame None ui) as (_ & _ & _ & _ & _ & Hc).
    rewrite (Hc Hne). apply listing_no_task.
    unfold get_task. now rewrite Htc, Ht, Hcur, Hnth.
  - intros answer. reflexivity.
Qed.

Lemma project_node_selected_witness :
  tasks_currentItem (with_tasks_currentItem (Some 0%nat) main_dialog)
  = Some 0%nat /\
  nth_error (tasks_treeWidget (with_tasks_currentItem (Some 0%nat) main_dialog))
            0 = Some (EProject film) /\
  takes_listWidget
    (tasks_treeWidget_changed (with_tasks_currentItem (Some 0%nat) main_dialog))
  = [].
Proof.
  split; [reflexivity|]. split; [reflexivity|].
  apply (project_node_selected
           (with_tasks_currentItem (Some 0%nat) main_dialog) 0 film);
    reflexivity.
Defined.

(** ** The current take through a sort *)

Lemma mark_current_true (cur : option nat) (l : list string) (y : string) :
  forall n, In (y, true) (mark_current n cur l) ->
            exists i, cur = Some i /\ (n <= i)%nat /\
                      nth_error l (i - n) = Some y.
Proof.
  induction l as [|x r IH]; simpl; intros n; [contradiction|].
  intros [H|H].
  - destruct cur as [i|]; [|discriminate]. injection H as -> Hi.
    apply Nat.eqb_eq in Hi. subst i. exists n.
    repeat split; [lia|]. now rewrite Nat.sub_diag.
  - destruct (IH _ H) as (i & -> & Hle & Hnth). exists i.
    repeat split; [lia|].
    replace (i - n)%nat with (S (i - S n)) by lia. exact Hnth.
Qed.

Lemma mark_current_in (l : list string) (y : string) :
  forall n i, (n <= i)%nat -> nth_error l (i - n) = Some y ->
              In (y, true) (mark_current n (Some i) l).
Proof.
  induction l as [|x r IH]; intros n i Hle; simpl.
  - now destruct (i - n)%nat.
  - destruct (Nat.eqb_spec i n) as [->|Hne].
    + rewrite Nat.sub_diag. simpl. intros [= ->]. now left.
    + replace (i - n)%nat with (S (i - S n)) by lia. simpl. intros H.
      right. apply IH; [lia|exact H].
Qed.

Lemma index_of_marked_some (l : list (string * bool)) :
  forall n j, index_of_marked n l = Some j ->
              exists y, (n <= j)%nat /\ nth_error l (j - n) = Some (y, true).
Proof.
  induction l as [|[x [|]] r IH]; simpl; intros n j; [discriminate| |].
  - intros [= <-]. exists x. rewrite Nat.sub_diag. split; [lia|reflexivity].
  - intros H. destruct (IH _ _ H) as (y & Hle & Hnth). exists y.
    split; [lia|]. replace (j - n)%nat with (S (j - S n)) by lia. exact Hnth.
Qed.

Lemma index_of_marked_none (l : list (string * bool)) :
  forall n, index_of_marked n l = None -> forall y, ~ In (y, true) l.
Proof.
  induction l as [|[x [|]] r IH]; simpl; intros n H y; [tauto|discriminate|].
  intros [Heq|Hin]; [discriminate|]. now apply (IH _ H y).
Qed.

(** The current item keeps its text through [sortItems]. *)
Lemma takes_sortItems_current (ui : UI) :
  takes_current (takes_sortItems ui) = takes_current ui.
Proof.
  unfold takes_sortItems, takes_current, with_takes.
  cbn [takes_currentItem takes_listWidget].
  set (marked := mark_current 0 (takes_currentItem ui) (takes_listWidget ui)).
  set (sorted := sort text_leb marked).
  assert (Hin : forall e, In e sorted <-> In e marked).
  { intros e. apply sort_in. }
  destruct (index_of_marked 0 sorted) as [j|] eqn:Hj.
  - destruct (index_of_marked_some _ _ _ Hj) as (y & _ & Hnth).
    rewrite Nat.sub_0_r in Hnth.
    rewrite nth_error_map, Hnth. simpl.
    apply nth_error_In, Hin in Hnth.
    destruct (mark_current_true _ _ _ _ Hnth) as (i & -> & _ & Hy).
    now rewrite Nat.sub_0_r in Hy.
  - destruct (takes_currentItem ui) as [i|] eqn:Hcur; [|reflexivity].
    destruct (nth_error (takes_listWidget ui) i) as [y|] eqn:Hy;
      [|reflexivity].
    exfalso. apply (index_of_marked_none _ _ Hj y), Hin.
    unfold marked. apply mark_current_in; [lia|]. now rewrite Nat.sub_0_r.
Qed.

(** ** Adding a take, in general *)

Lemma listing_frame_current (ui ui' : UI) :
  db ui' = db ui -> tasks_treeWidget ui' = tasks_treeWidget ui ->
  tasks_currentItem ui' = tasks_currentItem ui ->
  takes_current ui' = takes_current ui ->
  show_published_only ui' = show_published_only ui ->
  version_count ui' = version_count ui ->
  listing ui' = listing ui.
Proof.
  intros Hd Ht Htc Hc Hp Hn. unfold listing, current_take_name.
  now rewrite (get_task_frame ui ui' Ht Htc), Hc, Hd, Hp, Hn.
Qed.

Lemma takes_addItems_current (l : list string) (ui : UI) :
  takes_current ui <> None ->
  takes_current (takes_addItems l ui) = takes_current ui.
Proof.
  unfold takes_current, takes_addItems, with_takes.
  cbn [takes_currentItem takes_listWidget].
  destruct (takes_currentItem ui) as [i|]; [|reflexivity].
  intros H. apply nth_error_app1. now apply nth_error_Some.
Qed.

(** The list after [addItem] and [sortItems]. *)
Lemma add_sorted_spec (x : string) (ui : UI) :
  takes_current ui <> None ->
  let ui1 := takes_sortItems (takes_addItems [x] ui) in
  Permutation (takes_listWidget ui1) (x :: takes_listWidget ui) /\
  Sorted text_le (takes_listWidget ui1) /\
  takes_current ui1 = takes_current ui /\
  versions ui1 = versions ui /\
  listing ui1 = listing ui.
Proof.
  intros Hcur. cbv zeta.
  destruct (takes_sortItems_spec (takes_addItems [x] ui)) as [Hp Hs].
  assert (Hc : takes_current (takes_sortItems (takes_addItems [x] ui))
               = takes_current ui).
  { rewrite takes_sortItems_current. now apply takes_addItems_current. }
  split; [|split; [exact Hs|split; [exact Hc|split; [reflexivity|]]]].
  - eapply Permutation_trans; [exact Hp|].
    unfold takes_addItems, with_takes. cbn [takes_listWidget].
    apply Permutation_sym, Permutation_cons_append.
  - now apply listing_frame_current.
Qed.

Lemma add_take_new_eq (raw : string) (ui : UI) :
  takes_current ui <> None ->
  raw <> EmptyString ->
  ~ In (normalize raw) (takes_listWidget ui) ->
  exists item,
    nth_error (takes_listWidget
                 (takes_sortItems (takes_addItems [normalize raw] ui))) item
    = Some (normalize raw) /\
    takes_currentItem (takes_sortItems (takes_addItems [normalize raw] ui))
    <> Some item /\
    add_take_toolButton_clicked (raw, true) ui
    = Returned (takes_setCurrentItem (Some item)
                  (takes_sortItems (takes_addItems [normalize raw] ui))).
Proof.
  intros Hcur Hraw Hnot. unfold add_take_toolButton_clicked.
  destruct (takes_current ui) as [cur|] eqn:Hc; [|contradiction].
  apply String.eqb_neq in Hraw. rewrite Hraw. simpl negb. cbv iota zeta.
  replace (existsb (fun text => String.eqb text (normalize raw))
                   (takes_listWidget ui))
    with false
    by (symmetry; apply Bool.not_true_is_false;
        intros H; now apply existsb_text in H).
  simpl negb. cbv iota.
  destruct (add_sorted_spec (normalize raw) ui) as (Hp & _ & Hc1 & _);
    [now rewrite Hc|].
  set (ui1 := takes_sortItems (takes_addItems [normalize raw] ui)) in *.
  assert (Hin : In (normalize raw) (takes_listWidget ui1)).
  { apply (Permutation_in _ (Permutation_sym Hp)). now left. }
  destruct (findItems (normalize raw) ui1) as [|item rest] eqn:Hitems.
  { now apply (findItems_from_in _ _ Hin 0) in Hitems. }
  exists item. pose proof (findItems_hd_nth _ _ _ _ Hitems) as Hnth.
  split; [exact Hnth|]. split; [|reflexivity].
  intros Heq. rewrite Hc in Hc1. unfold takes_current in Hc1.
  rewrite Heq, Hnth in Hc1. injection Hc1 as <-. apply Hnot.
  unfold takes_current in Hc. destruct (takes_currentItem ui); [|discriminate].
  now apply nth_error_In in Hc.
Qed.

(** X14: with a current take, an answer of ASCII text that is not
    empty and whose conditioned form is not in the take list adds that
    form as one more entry, whether it is empty or not: the list holds
    the entries it had and the new one, the new entry is the current
    take, a list without duplicates stays without, and the versions
    listed are those of the new take.  The answer is taken among the
    ASCII texts because the conditioning is embedded exactly for those;
    nothing is said of the order [sortItems] gives the entries. *)
Theorem add_take_new_entry (raw : string) (ui : UI) :
  all_chars is_ascii raw = true ->
  takes_current ui <> None ->
  raw <> EmptyString ->
  ~ In (normalize raw) (takes_listWidget ui) ->
  exists ui',
    add_take_toolButton_clicked (raw, true) ui = Returned ui' /\
    Permutation (takes_listWidget ui') (normalize raw :: takes_listWidget ui) /\
    takes_current ui' = Some (normalize raw) /\
    (NoDup (takes_listWidget ui) -> NoDup (takes_listWidget ui')) /\
    cache_ok ui'.
Proof.
  intros _ Hcur Hraw Hnot.
  destruct (add_take_new_eq raw ui Hcur Hraw Hnot) as (item & Hnth & Hne & ->).
  destruct (add_sorted_spec (normalize raw) ui Hcur) as (Hp & _).
  set (ui1 := takes_sortItems (takes_addItems [normalize raw] ui)) in *.
  exists (takes_setCurrentItem (Some item) ui1).
  destruct (takes_setCurrentItem_spec (Some item) ui1)
    as (_ & _ & _ & Hl & Hlc & _).
  destruct (takes_setCurrentItem_frame (Some item) ui1)
    as (_ & _ & _ & _ & _ & Hc).
  split; [reflexivity|]. rewrite Hl.
  split; [exact Hp|].
  split; [unfold takes_current; now rewrite Hlc, Hl|].
  split; [|now apply Hc].
  intros Hnd. apply (Permutation_NoDup (Permutation_sym Hp)).
  now constructor.
Qed.

Lemma add_take_new_entry_witness :
  all_chars is_ascii "foo bar" = true /\
  takes_current main_dialog <> None /\
  "foo bar"%string <> EmptyString /\
  ~ In (normalize "foo bar") (takes_listWidget main_dialog) /\
  exists ui',
    add_take_toolButton_clicked ("foo bar"%string, true) main_dialog
    = Returned ui' /\
    Permutation (takes_listWidget ui')
                (normalize "foo bar" :: takes_listWidget main_dialog) /\
    takes_current ui' = Some (normalize "foo bar") /\
    (NoDup (takes_listWidget main_dialog) -> NoDup (takes_listWidget ui')) /\
    cache_ok ui'.
Proof.
  assert (Hn : ~ In (normalize "foo bar") (takes_listWidget main_dialog)).
  { vm_compute. intros [H|[]]. discriminate H. }
  split; [reflexivity|].
  split; [discriminate|]. split; [discriminate|]. split; [exact Hn|].
  apply (add_take_new_entry "foo bar" main_dialog);
    [reflexivity | discriminate | discriminate | exact Hn].
Defined.

(** X15: the add-take button never removes a take and never makes a
    duplicate: whatever is answered, every entry of the take list is
    still an entry afterwards, at most one entry is added, and a list
    without duplicates stays without. *)
Theorem add_take_keeps_entries (answer : string * bool) (ui : UI) :
  let ui' := ui_of (add_take_toolButton_clicked answer ui) in
  (forall x, In x (takes_listWidget ui) -> In x (takes_listWidget ui')) /\
  (List.length (takes_listWidget ui')
   <= S (List.length (takes_listWidget ui)))%nat /\
  (NoDup (takes_listWidget ui) -> NoDup (takes_listWidget ui')).
Proof.
  destruct answer as [raw ok]. cbv zeta.
  assert (Hsame : forall u, u = ui ->
    (forall x, In x (takes_listWidget ui) -> In x (takes_listWidget u)) /\
    (List.length (takes_listWidget u)
     <= S (List.length (takes_listWidget ui)))%nat /\
    (NoDup (takes_listWidget ui) -> NoDup (takes_listWidget u))).
  { intros u ->. repeat split; auto. }
  destruct (takes_current ui) as [cur|] eqn:Hcur.
  2:{ apply Hsame. unfold add_take_toolButton_clicked. now rewrite Hcur. }
  destruct ok.
  2:{ apply Hsame. unfold add_take_toolButton_clicked. now rewrite Hcur. }
  destruct (string_dec raw EmptyString) as [->|Hraw].
  { apply Hsame. unfold add_take_toolButton_clicked. now rewrite Hcur. }
  destruct (in_dec string_dec (normalize raw) (takes_listWidget ui))
    as [Hin|Hnot].
  { apply Hsame. unfold add_take_toolButton_clicked. rewrite Hcur.
    apply String.eqb_neq in Hraw. rewrite Hraw. simpl negb. cbv iota zeta.
    apply existsb_text in Hin. now rewrite Hin. }
  assert (Hc : takes_current ui <> None) by now rewrite Hcur.
  destruct (add_take_new_eq raw ui Hc Hraw Hnot) as (item & _ & _ & ->).
  destruct (add_sorted_spec (normalize raw) ui Hc) as (Hp & _).
  destruct (takes_setCurrentItem_spec (Some item)
              (takes_sortItems (takes_addItems [normalize raw] ui)))
    as (_ & _ & _ & Hl & _).
  cbn [ui_of]. rewrite Hl. split; [|split].
  - intros x Hx. apply (Permutation_in _ (Permutation_sym Hp)). now right.
  - rewrite (Permutation_length Hp). simpl. lia.
  - intros Hnd. apply (Permutation_NoDup (Permutation_sym Hp)).
    now constructor.
Qed.

(** ** The cache and the selection *)

Lemma update_cache_ok (ui : UI) :
  cache_ok (update_previous_versions_tableWidget ui).
Proof.
  unfold cache_ok. destruct (update_frame ui) as (_ & _ & _ & _ & _ & -> & _).
  symmetry. apply listing_update.
Qed.

Lemma changed_cache_ok (ui : UI) : cache_ok (takes_listWidget_changed ui).
Proof.
  unfold cache_ok.
  destruct (changed_frame ui) as (Hd & Ht & Htc & Hl & Hlc & -> & _ & _ & Hp & Hn).
  symmetry. now apply listing_frame.
Qed.

Lemma with_row_cache_ok (ui : UI) (row : Z) :
  cache_ok ui -> cache_ok (with_versions (versions ui) row ui).
Proof. unfold cache_ok. intros H. exact H. Qed.

Lemma takes_setCurrentItem_cache_ok (i : option nat) (ui : UI) :
  cache_ok ui -> cache_ok (takes_setCurrentItem i ui).
Proof.
  destruct (takes_setCurrentItem_frame i ui) as (_ & _ & _ & _ & H & _).
  exact H.
Qed.

Lemma tasks_setCurrentItem_cache_ok (i : nat) (ui : UI) :
  nth_error (tasks_treeWidget ui) i <> None ->
  cache_ok ui -> cache_ok (tasks_setCurrentItem i ui).
Proof.
  intros Hnth Hc. unfold tasks_setCurrentItem.
  assert (Hfire : cache_ok (tasks_treeWidget_changed
                              (with_tasks_currentItem (Some i) ui))).
  { set (ua := with_tasks_currentItem (Some i) ui).
    destruct (nth_error (tasks_treeWidget ui) i) as [[p|t]|] eqn:He;
      [| |contradiction].
    - rewrite (tasks_treeWidget_changed_project_eq ua i p eq_refl He).
      unfold takes_clear, cache_ok.
      rewrite (listing_no_take (with_takes [] None _)) by reflexivity.
      change (versions (with_takes [] None (takes_setCurrentItem None ua)))
        with (versions (takes_setCurrentItem None ua)).
      destruct (takes_setCurrentItem_spec None ua)
        as (_ & _ & _ & _ & Hnone & Hsame & _).
      destruct (takes_setCurrentItem_frame None ua)
        as (_ & _ & _ & _ & _ & Hfired).
      destruct (option_eq_dec_nat (takes_currentItem ua) None) as [Hn|Hn].
      + rewrite (Hsame Hn). change (versions ua) with (versions ui).
        rewrite Hc. now apply listing_no_take.
      + rewrite (Hfired Hn). now apply listing_no_take.
    - rewrite (tasks_treeWidget_changed_task_eq ua i t eq_refl He).
      apply changed_cache_ok. }
  destruct (tasks_currentItem ui) as [b|]; [|exact Hfire].
  destruct (Nat.eqb i b); [exact Hc|exact Hfire].
Qed.

Lemma add_take_cache_ok (answer : string * bool) (ui : UI) :
  cache_ok ui -> cache_ok (ui_of (add_take_toolButton_clicked answer ui)).
Proof.
  intros Hc. destruct answer as [raw ok]. unfold add_take_toolButton_clicked.
  destruct (takes_current ui) as [cur|] eqn:Hcur; [|exact Hc].
  destruct ok; [|exact Hc].
  destruct (negb (String.eqb raw EmptyString)); [|exact Hc].
  cbv zeta. destruct (negb (existsb _ _)); [|exact Hc].
  destruct (add_sorted_spec (normalize raw) ui) as (_ & _ & _ & Hv & Hl);
    [now rewrite Hcur|].
  set (ui1 := takes_sortItems (takes_addItems [normalize raw] ui)) in *.
  assert (Hc1 : cache_ok ui1).
  { unfold cache_ok. now rewrite Hv, Hl. }
  destruct (findItems (normalize raw) ui1) as [|item rest]; [exact Hc1|].
  cbn [ui_of]. now apply takes_setCurrentItem_cache_ok.
Qed.

Lemma restore_ui_cache_ok (version : option Version) (ui : UI) :
  cache_ok ui -> cache_ok (ui_of (restore_ui version ui)).
Proof.
  intros Hc. unfold restore_ui.
  destruct version as [v|]; [|exact Hc].
  destruct (negb (active (project (task v)))); [exact Hc|].
  destruct (find_entity_item_in_tree_widget (ETask (task v)) ui)
    as [item|] eqn:Hf; [|exact Hc].
  cbv zeta.
  assert (Hc1 : cache_ok (tasks_setCurrentItem item ui)).
  { apply tasks_setCurrentItem_cache_ok; [|exact Hc].
    now rewrite (find_entity_item_nth _ _ _ Hf). }
  destruct (findItems (take_name v) (tasks_setCurrentItem item ui))
    as [|item0 rest]; [exact Hc1|].
  assert (Hc2 : cache_ok (takes_setCurrentItem (Some item0)
                            (tasks_setCurrentItem item ui))).
  { now apply takes_setCurrentItem_cache_ok. }
  destruct (negb _); [|exact Hc2].
  cbn [ui_of]. now apply with_row_cache_ok.
Qed.

(** X16: the handlers keep the cache in step with the selection.  After
    a rebuild, and after a change of take, of the count or of the
    published-only box, the cache holds the listing of the task and take
    that are current; and when it does, it still does after a take or a
    tree node is made current, after the add-take button and after a
    restoration, whether they return or raise. *)
Theorem cache_follows_selection (ui : UI) :
  cache_ok (update_previous_versions_tableWidget ui) /\
  cache_ok (takes_listWidget_changed ui) /\
  (forall count, cache_ok (version_count_changed count ui)) /\
  (forall checked, cache_ok (show_published_only_changed checked ui)) /\
  (cache_ok ui ->
   (forall i, cache_ok (takes_setCurrentItem i ui)) /\
   (forall i, nth_error (tasks_treeWidget ui) i <> None ->
              cache_ok (tasks_setCurrentItem i ui)) /\
   (forall answer, cache_ok (ui_of (add_take_toolButton_clicked answer ui))) /\
   (forall version, cache_ok (ui_of (restore_ui version ui)))).
Proof.
  split; [apply update_cache_ok|]. split; [apply changed_cache_ok|].
  split; [intros count; apply update_cache_ok|].
  split; [intros checked; apply update_cache_ok|].
  intros Hc. split; [|split; [|split]].
  - intros i. now apply takes_setCurrentItem_cache_ok.
  - intros i Hi. now apply tasks_setCurrentItem_cache_ok.
  - intros answer. now apply add_take_cache_ok.
  - intros version. now apply restore_ui_cache_ok.
Qed.

(** ** Restoring the dialog, in general *)

(** X17: how a restoration ends.  Without a version, for a version of
    an inactive project and for a task without a node in the tree it
    returns and leaves the dialog as it was.  It raises exactly when the
    project is active, the task has a node and no entry of the take list
    carries the take name of the version; what it raises then is
    IndexError, after the node of the task has been made current. *)
Theorem restore_ui_outcomes (version : option Version) (ui : UI) :
  ((version = None \/
    exists v, version = Some v /\
      (active (project (task v)) = false \/
       find_entity_item_in_tree_widget (ETask (task v)) ui = None)) ->
   restore_ui version ui = Returned ui) /\
  (raises (restore_ui version ui) = true <->
   exists v item,
     version = Some v /\ active (project (task v)) = true /\
     find_entity_item_in_tree_widget (ETask (task v)) ui = Some item /\
     findItems (take_name v) (tasks_setCurrentItem item ui) = []) /\
  (forall v item,
      version = Some v -> active (project (task v)) = true ->
      find_entity_item_in_tree_widget (ETask (task v)) ui = Some item ->
      findItems (take_name v) (tasks_setCurrentItem item ui) = [] ->
      restore_ui version ui
      = Raised IndexError (tasks_setCurrentItem item ui)).
Proof.
  split; [apply restore_ui_silent|]. split; [apply restore_ui_raises|].
  intros v item -> Ha Hf Hi. unfold restore_ui. now rewrite Ha, Hf, Hi.
Qed.

(** X18: a restoration that finds the version in the list shown once
    the task and the take are selected makes its row the current one:
    [get_previous_version] then returns that version. *)
Theorem restore_ui_selects_row (version : Version) (ui : UI)
    (item item0 : nat) (rest : list nat) :
  active (project (task version)) = true ->
  find_entity_item_in_tree_widget (ETask (task version)) ui = Some item ->
  findItems (take_name version) (tasks_setCurrentItem item ui)
  = item0 :: rest ->
  let ui' := ui_of (restore_ui (Some version) ui) in
  In version (versions ui') ->
  restore_ui (Some version) ui = Returned ui' /\
  get_task ui' = Some (task version) /\
  takes_current ui' = Some (take_name version) /\
  (0 <= currentRow ui')%Z /\
  get_previous_version ui' = Some version.
Proof.
  intros Ha Hf Hi ui'. subst ui'.
  rewrite (restore_ui_found version ui item item0 rest Ha Hf Hi).
  pose proof (find_entity_item_nth _ _ _ Hf) as Hnth.
  destruct (tasks_setCurrentItem_spec ui item (task version) Hnth)
    as (Ht1 & Hc1 & _ & _).
  pose proof (findItems_hd_nth _ _ _ _ Hi) as Htake.
  generalize dependent (tasks_setCurrentItem item ui). intros ui1 _ **.
  destruct (takes_setCurrentItem_spec (Some item0) ui1)
    as (_ & Ht2 & Hc2 & Hl2 & Hlc2 & _).
  cbv zeta in *.
  generalize dependent (takes_setCurrentItem (Some item0) ui1). intros ui2 **.
  assert (Hin : In version (versions ui2)).
  { destruct (negb _) in H; exact H. }
  destruct (index_of_version_present _ _ Hin 0%Z) as (k & Hk & Hnthk); [lia|].
  rewrite Hk.
  replace (negb (0 + Z.of_nat k =? -1)%Z) with true
    by (symmetry; apply Bool.negb_true_iff, Z.eqb_neq; lia).
  cbn [ui_of]. split; [reflexivity|]. split; [|split; [|split]].
  - unfold get_task, with_versions. cbn [tasks_currentItem tasks_treeWidget].
    now rewrite Hc2, Ht2, Hc1, Ht1, Hnth.
  - unfold takes_current, with_versions.
    cbn [takes_currentItem takes_listWidget]. now rewrite Hlc2, Hl2.
  - unfold with_versions. cbn [currentRow]. lia.
  - unfold get_previous_version, with_versions. cbn [versions currentRow].
    unfold py_getitem.
    replace (0 <=? 0 + Z.of_nat k)%Z with true
      by (symmetry; apply Z.leb_le; lia).
    now replace (Z.to_nat (0 + Z.of_nat k)) with k by lia.
Qed.

Lemma restore_ui_selects_row_witness :
  active (project (task v4)) = true /\
  find_entity_item_in_tree_widget (ETask (task v4)) fresh_dialog
  = Some 1%nat /\
  findItems (take_name v4) (tasks_setCurrentItem 1 fresh_dialog)
  = [0%nat] /\
  In v4 (versions (ui_of (restore_ui (Some v4) fresh_dialog))) /\
  get_previous_version (ui_of (restore_ui (Some v4) fresh_dialog)) = Some v4.
Proof.
  assert (Hin : In v4 (versions (ui_of (restore_ui (Some v4) fresh_dialog)))).
  { vm_compute. right. left. reflexivity. }
  split; [reflexivity|]. split; [reflexivity|]. split; [reflexivity|].
  split; [exact Hin|].
  apply (restore_ui_selects_row v4 fresh_dialog 1 0 []);
    [reflexivity | reflexivity | reflexivity | exact Hin].
Defined.

Lemma tasks_setCurrentItem_task_frame (ui : UI) (i : nat) (t : Task) :
  nth_error (tasks_treeWidget ui) i = Some (ETask t) ->
  tasks_currentItem ui <> Some i ->
  let ui1 := tasks_setCurrentItem i ui in
  db ui1 = db ui /\ show_published_only ui1 = show_published_only ui /\
  version_count ui1 = version_count ui /\
  takes_listWidget ui1 = task_takes (db ui) t /\
  cache_ok ui1.
Proof.
  intros Hnth Hne. cbv zeta.
  assert (Heq : tasks_setCurrentItem i ui
                = tasks_treeWidget_changed (with_tasks_currentItem (Some i) ui)).
  { unfold tasks_setCurrentItem.
    destruct (tasks_currentItem ui) as [b|]; [|reflexivity].
    destruct (Nat.eqb_spec i b) as [->|_]; [congruence|reflexivity]. }
  rewrite Heq.
  rewrite (tasks_treeWidget_changed_task_eq
             (with_tasks_currentItem (Some i) ui) i t eq_refl Hnth).
  set (ua := with_tasks_currentItem (Some i) ui).
  destruct (takes_setCurrentItem_frame None ua) as (Hd0 & _ & Hp0 & Hn0 & _).
  set (ub := with_takes (task_takes (db ua) t) (Some 0%nat)
               (takes_setCurrentItem None ua)).
  destruct (changed_frame ub) as (-> & _ & _ & -> & _ & _ & _ & _ & -> & ->).
  unfold ub. cbn [db show_published_only version_count takes_listWidget
                  with_takes].
  rewrite Hd0, Hp0, Hn0. repeat split. apply changed_cache_ok.
Qed.

(** X19: a restoration that has to make the node of the task current
    reads the take list anew from the versions of the task, so for a
    version that is among the rows it never raises.  The task and the
    take of the version are then selected and the list shown is the
    listing of that task and take; when the take name is not empty, a
    version within it gets its row, and for one outside it no row is
    current, so that [get_previous_version] falls back on the last
    version listed. *)
Theorem restore_ui_from_rows (version : Version) (ui : UI) (item : nat) :
  active (project (task version)) = true ->
  find_entity_item_in_tree_widget (ETask (task version)) ui = Some item ->
  tasks_currentItem ui <> Some item ->
  In version (db ui) ->
  take_name version <> EmptyString ->
  let ui' := ui_of (restore_ui (Some version) ui) in
  let shown :=
    list_versions_reference (db ui) (task version) (take_name version)
      (show_published_only ui) (version_count ui) in
  restore_ui (Some version) ui = Returned ui' /\
  get_task ui' = Some (task version) /\
  takes_current ui' = Some (take_name version) /\
  versions ui' = shown /\
  (In version shown -> get_previous_version ui' = Some version) /\
  (~ In version shown ->
   currentRow ui' = (-1)%Z /\
   get_previous_version ui' = py_getitem shown (-1)).
Proof.
  intros Ha Hf Hne Hdb Htk. cbv zeta.
  pose proof (find_entity_item_nth _ _ _ Hf) as Hnth.
  destruct (tasks_setCurrentItem_task_frame ui item (task version) Hnth Hne)
    as (Hd1 & Hp1 & Hn1 & Hl1 & Hok1).
  destruct (tasks_setCurrentItem_spec ui item (task version) Hnth)
    as (Ht1 & Hc1 & _ & Hrow1).
  assert (Hin : In (take_name version)
                   (takes_listWidget (tasks_setCurrentItem item ui))).
  { rewrite Hl1. apply task_takes_in. right. now exists version. }
  destruct (findItems (take_name version) (tasks_setCurrentItem item ui))
    as [|item0 rest] eqn:Hi.
  { now apply (findItems_from_in _ _ Hin 0) in Hi. }
  rewrite (restore_ui_found version ui item item0 rest Ha Hf Hi).
  pose proof (findItems_hd_nth _ _ _ _ Hi) as Htake.
  specialize (Hrow1 Hne).
  generalize dependent (tasks_setCurrentItem item ui). intros ui1 **.
  destruct (takes_setCurrentItem_spec (Some item0) ui1)
    as (_ & Ht2 & Hc2 & Hl2 & Hlc2 & Hsame2 & Hrow2).
  destruct (takes_setCurrentItem_frame (Some item0) ui1)
    as (Hd2 & _ & Hp2 & Hn2 & Hok2 & _).
  specialize (Hok2 Hok1).
  assert (Hrow : currentRow (takes_setCurrentItem (Some item0) ui1) = (-1)%Z).
  { destruct (option_eq_dec_nat (takes_currentItem ui1) (Some item0))
      as [He|He]; [now rewrite (Hsame2 He)|now apply Hrow2]. }
  cbv zeta in *.
  generalize dependent (takes_setCurrentItem (Some item0) ui1). intros ui2 **.
  assert (Hg : get_task ui2 = Some (task version)).
  { unfold get_task. now rewrite Hc2, Ht2, Hc1, Ht1, Hnth. }
  assert (Hc : takes_current ui2 = Some (take_name version)).
  { unfold takes_current. now rewrite Hlc2, Hl2. }
  assert (Hv : versions ui2
               = list_versions_reference (db ui) (task version)
                   (take_name version) (show_published_only ui)
                   (version_count ui)).
  { rewrite Hok2, (listing_selected ui2 _ _ Hg Hc Htk).
    now rewrite Hd2, Hd1, Hp2, Hp1, Hn2, Hn1. }
  destruct (in_dec Version_eq_dec version (versions ui2)) as [Hin2|Hn].
  - destruct (index_of_version_present _ _ Hin2 0%Z) as (k & Hk & Hnthk);
      [lia|].
    rewrite Hk.
    replace (negb (0 + Z.of_nat k =? -1)%Z) with true
      by (symmetry; apply Bool.negb_true_iff, Z.eqb_neq; lia).
    cbn [ui_of]. split; [reflexivity|].
    split; [exact Hg|]. split; [exact Hc|]. split; [exact Hv|]. split.
    + intros _. unfold get_previous_version, with_versions.
      cbn [versions currentRow]. unfold py_getitem.
      replace (0 <=? 0 + Z.of_nat k)%Z with true
        by (symmetry; apply Z.leb_le; lia).
      now replace (Z.to_nat (0 + Z.of_nat k)) with k by lia.
    + intros Hnot. exfalso. apply Hnot. now rewrite <- Hv.
  - rewrite (index_of_version_absent _ _ Hn).
    change (negb (-1 =? -1)%Z) with false. cbv iota. cbn [ui_of].
    split; [reflexivity|].
    split; [exact Hg|]. split; [exact Hc|]. split; [exact Hv|]. split.
    + intros Hyes. exfalso. apply Hn. now rewrite Hv.
    + intros _. split; [exact Hrow|].
      unfold get_previous_version. now rewrite Hrow, Hv.
Qed.

Lemma restore_ui_from_rows_witness :
  active (project (task v1)) = true /\
  find_entity_item_in_tree_widget (ETask (task v1)) fresh_dialog
  = Some 1%nat /\
  tasks_currentItem fresh_dialog <> Some 1%nat /\
  In v1 (db fresh_dialog) /\
  take_name v1 <> EmptyString /\
  versions (ui_of (restore_ui (Some v1) fresh_dialog))
  = list_versions_reference (db fresh_dialog) (task v1) (take_name v1)
      (show_published_only fresh_dialog) (version_count fresh_dialog).
Proof.
  split; [reflexivity|]. split; [reflexivity|]. split; [discriminate|].
  split; [right; left; reflexivity|]. split; [discriminate|].
  apply (restore_ui_from_rows v1 fresh_dialog 1);
    [reflexivity | reflexivity | discriminate | right; left; reflexivity
    | discriminate].
Defined.

(** ** The reference button *)

Lemma listing_published (ui : UI) (v : Version) :
  show_published_only ui = true -> In v (listing ui) -> is_published v = true.
Proof.
  intros Hp. unfold listing. destruct (get_task ui) as [t|]; [|contradiction].
  destruct (String.eqb _ _); [contradiction|].
  intros H. apply reference_in, candidates_in in H. now apply H.
Qed.

(** X20: the reference button hands a version to the environment only
    when there is an environment and the version is a published one of
    the list shown, the one [get_previous_version] returns.  With no
    version to get it raises AttributeError, and while the list shown is
    the published-only listing it never has to refuse a version. *)
Theorem reference_published_only (environment debug : bool) (ui : UI) :
  let outcome := reference_pushButton_clicked environment debug ui in
  (outcome = ReferenceRaised AttributeError <->
   get_previous_version ui = None) /\
  (forall effects v,
      outcome = ReferenceDone effects -> In (EnvReference v) effects ->
      environment = true /\ is_published v = true /\
      get_previous_version ui = Some v /\ In v (versions ui)) /\
  (cache_ok ui -> show_published_only ui = true ->
   forall effects, outcome = ReferenceDone effects ->
                   ~ In CriticalBox effects).
Proof.
  cbv zeta. unfold reference_pushButton_clicked.
  destruct (get_previous_version ui) as [pv|] eqn:Hg.
  - pose proof (py_getitem_some_in _ _ _ Hg) as Hin.
    destruct (is_published pv) eqn:Hpub; simpl negb; cbv iota.
    + split; [split; [destruct environment|]; discriminate|]. split.
      * intros effects v Hdone Hv.
        assert (environment = true /\ v = pv) as [-> ->]; [|auto].
        destruct environment, debug; injection Hdone as <-; simpl in Hv;
          intuition (try discriminate; congruence).
      * intros _ _ effects Hdone Hc.
        destruct environment, debug; injection Hdone as <-; simpl in Hc;
          intuition discriminate.
    + split; [split; discriminate|]. split.
      * intros effects v [= <-]. simpl. intros [H|[]]. discriminate H.
      * intros Hc Hp. exfalso. rewrite Hc in Hin.
        rewrite (listing_published ui pv Hp Hin) in Hpub. discriminate.
  - split; [split; reflexivity|]. split.
    + intros effects v H. discriminate H.
    + intros _ _ effects H. discriminate H.
Qed.
